(** * sUSDe term-structure dashboard: term-spread pipeline

    A shallow embedding of the term-spread derivation and analytics code:
    - [src/server/db.ts]: the [term_spreads] table and its prepared
      statements;
    - the ingestion module with the smoothing pass ([src/unnamed/part_002]):
      [computeTermSpreads] and [compute7DayMA];
    - the dashboard component ([src/unnamed/part_000]):
      [interpretTermSpread], [computeDeciles], the nearest-date price
      lookup and the realized-volatility series.

    Conventions of the embedding.
    - JavaScript numbers are idealised as exact rationals ([Q]); only the
      volatility series, which needs [Math.log] and [Math.sqrt], is valued
      in the reals.
    - A calendar day (an ISO string YYYY-MM-DD in the source) is its day
      number ([Z]), the number of days since 1970-01-01; the lexicographic
      order of canonical ISO strings is the order of day numbers.
    - A [Date] object is its time value in milliseconds. Where the source
      moves a date with [setDate] and [getDate], which work in the local
      time of the runtime, the embedding takes the time zone as a
      parameter.
    - A table with a primary key is a finite map from the key to the row.
    - [None] in an [option]-valued step stands for a thrown TypeError. *)

From Stdlib Require Import ZArith QArith Qround Reals Lra Lia Lqa.
From stdpp Require Import base option list sorting gmap strings.

Local Open Scope Z_scope.

(** ** JavaScript built-ins used by the code *)

Module JS.

(** [a > b] on numbers. *)
Definition gt (a b : Q) : bool := negb (Qle_bool a b).

Definition Math_max (a b : Q) : Q := if Qle_bool a b then b else a.
Definition Math_min (a b : Q) : Q := if Qle_bool a b then a else b.

(** [Math.round]: nearest integer, ties towards plus infinity. *)
Definition Math_round (x : Q) : Z := Qfloor (x + (1 # 2))%Q.

(** [Math.floor(n / k)] on array lengths. *)
Definition floor_div (n k : nat) : nat := Nat.div n k.

(** [arr.slice(start, stop)] for [0 <= start]. *)
Definition slice {A} (start stop : nat) (l : list A) : list A :=
  take (stop - start) (drop start l).

(** [arr.reduce((sum, r) => sum + f(r), 0)]. *)
Definition reduce_sum {A} (f : A → Q) (l : list A) : Q :=
  fold_left (fun sum r => (sum + f r)%Q) l 0%Q.

(** [arr.reduce(...) / arr.length]. *)
Definition average {A} (f : A → Q) (l : list A) : Q :=
  (reduce_sum f l / inject_Z (Z.of_nat (length l)))%Q.

(** [[...new Set(xs)]]: the distinct elements in order of first occurrence. *)
Fixpoint Set_of (l : list Z) : list Z :=
  match l with
  | [] => []
  | x :: l' => x :: filter (fun y => y ≠ x) (Set_of l')
  end.

(** [arr.sort(cmp)] is a stable sort; for a total preorder its result is
    the one of stable insertion. *)
Section Sort.
Context {A : Type} (leb : A → A → bool).

Fixpoint insert_sorted (x : A) (l : list A) : list A :=
  match l with
  | [] => [x]
  | y :: l' => if leb x y then x :: y :: l' else y :: insert_sorted x l'
  end.

Definition sort (l : list A) : list A := foldr insert_sorted [] l.
End Sort.

(** *** Dates

    The time value of a [Date] is a number of milliseconds since
    1970-01-01T00:00Z. The local time zone of the runtime is given by its
    offsets from UTC in milliseconds: [LocalTZA_utc t] is the offset in
    force at the instant [t] (ECMAScript's LocalTZA(t, true)) and
    [LocalTZA_local t] the offset with which the local time value [t] is
    read (LocalTZA(t, false)). *)
Record TimeZone := mkTimeZone {
  LocalTZA_utc : Z → Z;
  LocalTZA_local : Z → Z
}.

Definition msPerDay : Z := 86400000.

(** ECMAScript's LocalTime(t) and UTC(t). *)
Definition LocalTime (tz : TimeZone) (t : Z) : Z := t + LocalTZA_utc tz t.
Definition UTC (tz : TimeZone) (t : Z) : Z := t - LocalTZA_local tz t.

(** [new Date(dateStr)] for a date-only ISO string: midnight UTC of the
    day. *)
Definition Date_of (day : Z) : Z := day * msPerDay.

(** [nd.setDate(nd.getDate() + n)]: the day of the month of the local
    time is moved by [n], which moves the local time by [n] whole days and
    keeps its time of day; the result is read back as a local time. *)
Definition setDate_plus (tz : TimeZone) (t n : Z) : Z :=
  UTC tz (LocalTime tz t + n * msPerDay).

(** [nd.toISOString().split("T")[0]]: the UTC day of a time value. *)
Definition isoDate (t : Z) : Z := t / msPerDay.

(** [const nd = new Date(dateStr); nd.setDate(nd.getDate() + n);
    nd.toISOString().split("T")[0]]: the key the source computes for the
    day [n] days from [day]. *)
Definition shiftDate (tz : TimeZone) (day n : Z) : Z :=
  isoDate (setDate_plus tz (Date_of day) n).

(** The zone whose local time is UTC. *)
Definition Etc_UTC : TimeZone := mkTimeZone (fun _ => 0) (fun _ => 0).

End JS.

(** ** The persistent store ([server/db.ts]) *)

Module Db.

(** A row of [daily_snapshots], with the columns the spread engine reads. *)
Record Snapshot := mkSnapshot {
  snap_date : Z;
  market_addr : string;
  expiry : Z;
  implied_apy : Q;
  underlying_apy : Q;
  days_to_expiry : option Z
}.

(** A row of [term_spreads] (the key [date] is the key of the map). The
    last three columns are the ones added by the schema migration. *)
Record TermSpreadRow := mkTermSpreadRow {
  front_addr : string;
  front_expiry : Z;
  front_implied : Q;
  back_addr : string;
  back_expiry : Z;
  back_implied : Q;
  term_spread : Q;
  term_spread_7dma : option Q;
  ts_underlying_apy : Q;
  num_maturities : Z;
  regime : option string;
  btc_outlook : option string;
  prob_positive_90d : option Q
}.

(** The named parameters bound by [upsertTermSpread.run]. *)
Record TermSpreadParams := mkTermSpreadParams {
  p_date : Z;
  p_frontAddr : string;
  p_frontExpiry : Z;
  p_frontImplied : Q;
  p_backAddr : string;
  p_backExpiry : Z;
  p_backImplied : Q;
  p_termSpread : Q;
  p_underlyingApy : Q;
  p_numMaturities : Z
}.

(** [INSERT INTO term_spreads (...) VALUES (..., NULL, ...)]: the smoothed
    column is NULL and the migrated columns take their default, NULL. *)
Definition inserted_row (p : TermSpreadParams) : TermSpreadRow :=
  {| front_addr := p_frontAddr p;
     front_expiry := p_frontExpiry p;
     front_implied := p_frontImplied p;
     back_addr := p_backAddr p;
     back_expiry := p_backExpiry p;
     back_implied := p_backImplied p;
     term_spread := p_termSpread p;
     term_spread_7dma := None;
     ts_underlying_apy := p_underlyingApy p;
     num_maturities := p_numMaturities p;
     regime := None;
     btc_outlook := None;
     prob_positive_90d := None |}.

(** [ON CONFLICT(date) DO UPDATE SET ...]: the nine listed columns. *)
Definition conflict_update (p : TermSpreadParams) (r : TermSpreadRow) : TermSpreadRow :=
  {| front_addr := p_frontAddr p;
     front_expiry := p_frontExpiry p;
     front_implied := p_frontImplied p;
     back_addr := p_backAddr p;
     back_expiry := p_backExpiry p;
     back_implied := p_backImplied p;
     term_spread := p_termSpread p;
     term_spread_7dma := term_spread_7dma r;
     ts_underlying_apy := p_underlyingApy p;
     num_maturities := p_numMaturities p;
     regime := regime r;
     btc_outlook := btc_outlook r;
     prob_positive_90d := prob_positive_90d r |}.

Definition upsertTermSpread (p : TermSpreadParams)
    (ts : gmap Z TermSpreadRow) : gmap Z TermSpreadRow :=
  match ts !! p_date p with
  | Some r => <[p_date p := conflict_update p r]> ts
  | None => <[p_date p := inserted_row p]> ts
  end.

Definition set_7dma (v : Q) (r : TermSpreadRow) : TermSpreadRow :=
  {| front_addr := front_addr r;
     front_expiry := front_expiry r;
     front_implied := front_implied r;
     back_addr := back_addr r;
     back_expiry := back_expiry r;
     back_implied := back_implied r;
     term_spread := term_spread r;
     term_spread_7dma := Some v;
     ts_underlying_apy := ts_underlying_apy r;
     num_maturities := num_maturities r;
     regime := regime r;
     btc_outlook := btc_outlook r;
     prob_positive_90d := prob_positive_90d r |}.

(** [UPDATE term_spreads SET term_spread_7dma = @termSpread7dma WHERE date = @date]. *)
Definition updateTermSpread7dma (d : Z) (termSpread7dma : Q)
    (ts : gmap Z TermSpreadRow) : gmap Z TermSpreadRow :=
  alter (set_7dma termSpread7dma) d ts.

Definition set_regime (rg ol : option string) (pr : option Q)
    (r : TermSpreadRow) : TermSpreadRow :=
  {| front_addr := front_addr r;
     front_expiry := front_expiry r;
     front_implied := front_implied r;
     back_addr := back_addr r;
     back_expiry := back_expiry r;
     back_implied := back_implied r;
     term_spread := term_spread r;
     term_spread_7dma := term_spread_7dma r;
     ts_underlying_apy := ts_underlying_apy r;
     num_maturities := num_maturities r;
     regime := rg;
     btc_outlook := ol;
     prob_positive_90d := pr |}.

(** [UPDATE term_spreads SET regime = .., btc_outlook = .., prob_positive_90d = .. WHERE date = @date]. *)
Definition updateRegime (d : Z) (rg ol : option string) (pr : option Q)
    (ts : gmap Z TermSpreadRow) : gmap Z TermSpreadRow :=
  alter (set_regime rg ol pr) d ts.

(** A row of [btc_prices] (the key [date] is the key of the map). *)
Record BtcPriceRow := mkBtcPriceRow {
  price : Q;
  change_24h : option Q
}.

(** [INSERT INTO btc_prices (date, price, change_24h) VALUES (...)
    ON CONFLICT(date) DO UPDATE SET price = @price, change_24h = @change24h]. *)
Definition upsertBtcPrice (date : Z) (price : Q) (change24h : option Q)
    (btc_prices : gmap Z BtcPriceRow) : gmap Z BtcPriceRow :=
  <[date := mkBtcPriceRow price change24h]> btc_prices.

End Db.

(** ** The spread engine and the smoothing pass (the ingestion module) *)

Module Ingest.
Import Db.

(** [days_to_expiry > 0] in SQL: NULL does not satisfy it. *)
Definition dte_positive (s : Snapshot) : bool :=
  match days_to_expiry s with
  | Some n => 0 <? n
  | None => false
  end.

(** [SELECT ... FROM daily_snapshots WHERE date = ? AND days_to_expiry > 0
    ORDER BY expiry ASC]. *)
Definition selectSnapshots (daily_snapshots : list Snapshot) (d : Z) : list Snapshot :=
  JS.sort (fun a b => expiry a <=? expiry b)
    (filter (fun s => snap_date s = d ∧ dte_positive s = true) daily_snapshots).

(** [SELECT date, ... FROM daily_snapshots GROUP BY date ORDER BY date]. *)
Definition selectDates (daily_snapshots : list Snapshot) : list Z :=
  JS.sort Z.leb (JS.Set_of (map snap_date daily_snapshots)).

(** The body of the loop of [computeMany] for one date. *)
Definition processDate (daily_snapshots : list Snapshot)
    (ts : gmap Z TermSpreadRow) (d : Z) : option (gmap Z TermSpreadRow) :=
  let snapshots := selectSnapshots daily_snapshots d in
  match snapshots with
  | [] => Some ts
  | snap :: _ =>
    let uniqueExpiries := JS.sort Z.leb (JS.Set_of (map expiry snapshots)) in
    if (2 <=? length uniqueExpiries)%nat then
      frontExpiry ← uniqueExpiries !! 0%nat;
      backExpiry ← uniqueExpiries !! (length uniqueExpiries - 1)%nat;
      let frontSnaps := filter (fun s => expiry s = frontExpiry) snapshots in
      let backSnaps := filter (fun s => expiry s = backExpiry) snapshots in
      let frontImplied := JS.average implied_apy frontSnaps in
      let backImplied := JS.average implied_apy backSnaps in
      let termSpread := (backImplied - frontImplied)%Q in
      front0 ← frontSnaps !! 0%nat;
      back0 ← backSnaps !! 0%nat;
      Some (upsertTermSpread
              {| p_date := d;
                 p_frontAddr := market_addr front0;
                 p_frontExpiry := frontExpiry;
                 p_frontImplied := frontImplied;
                 p_backAddr := market_addr back0;
                 p_backExpiry := backExpiry;
                 p_backImplied := backImplied;
                 p_termSpread := termSpread;
                 p_underlyingApy := underlying_apy front0;
                 p_numMaturities := Z.of_nat (length uniqueExpiries) |} ts)
    else
      Some (upsertTermSpread
              {| p_date := d;
                 p_frontAddr := market_addr snap;
                 p_frontExpiry := expiry snap;
                 p_frontImplied := implied_apy snap;
                 p_backAddr := market_addr snap;
                 p_backExpiry := expiry snap;
                 p_backImplied := implied_apy snap;
                 p_termSpread := 0%Q;
                 p_underlyingApy := underlying_apy snap;
                 p_numMaturities := 1 |} ts)
  end.

(** The transaction [computeMany]: the loop over the dates. *)
Fixpoint computeMany (daily_snapshots : list Snapshot) (datesToProcess : list Z)
    (ts : gmap Z TermSpreadRow) : option (gmap Z TermSpreadRow) :=
  match datesToProcess with
  | [] => Some ts
  | d :: rest =>
    ts' ← processDate daily_snapshots ts d;
    computeMany daily_snapshots rest ts'
  end.

(** [computeTermSpreads]: the state of [term_spreads] after the
    transaction (the function itself returns the row count of the table). *)
Definition computeTermSpreads (daily_snapshots : list Snapshot)
    (ts : gmap Z TermSpreadRow) : option (gmap Z TermSpreadRow) :=
  computeMany daily_snapshots (selectDates daily_snapshots) ts.

(** [SELECT date, term_spread FROM term_spreads ORDER BY date ASC]. *)
Definition selectSpreads (ts : gmap Z TermSpreadRow) : list (Z * Q) :=
  JS.sort (fun a b => a.1 <=? b.1)
    ((fun kv => (kv.1, term_spread kv.2)) <$> map_to_list ts).

(** The trailing window of index [i]: [rows.slice(Math.max(0, i - 6), i + 1)]. *)
Definition window (rows : list (Z * Q)) (i : nat) : list (Z * Q) :=
  let windowStart := Z.max 0 (Z.of_nat i - 6) in
  JS.slice (Z.to_nat windowStart) (i + 1) rows.

(** The list [updates] built by the loop over [i]. *)
Definition smoothingUpdates (rows : list (Z * Q)) : list (Z * Q) :=
  imap (fun i r => (r.1, JS.average snd (window rows i))) rows.

(** The transaction [updateMany]. *)
Definition updateMany (updates : list (Z * Q))
    (ts : gmap Z TermSpreadRow) : gmap Z TermSpreadRow :=
  foldl (fun t u => updateTermSpread7dma u.1 u.2 t) ts updates.

Definition compute7DayMA (ts : gmap Z TermSpreadRow) : gmap Z TermSpreadRow :=
  let rows := selectSpreads ts in
  match rows with
  | [] => ts
  | _ => updateMany (smoothingUpdates rows) ts
  end.


(** *** The source normalizers *)

(** [new Date(iso).getTime()] of a calendar day: its UTC midnight, in
    milliseconds. *)
Definition getTime (day : Z) : Z := day * 86400000.

Definition daysBetween (a b : Z) : Z :=
  JS.Math_round (inject_Z (getTime b - getTime a) / 86400000)%Q.

(** An entry of the Pendle history; [he_date] is the date part of its
    timestamp, [e.timestamp.split("T")[0]]. *)
Record PendleHistEntry := mkPendleHistEntry {
  he_date : Z;
  impliedApy : Q;
  underlyingApy : Q;
  maxApy : Q;
  baseApy : Q;
  tvl : Q
}.

(** The outlier removal of [ingestPendleMarket]:
    [if (entries.length > 2) entries = entries.slice(1, -1)]. *)
Definition trimEntries (entries : list PendleHistEntry) : list PendleHistEntry :=
  if (2 <? length entries)%nat
  then JS.slice 1 (length entries - 1) entries
  else entries.

(** The named parameters bound by [upsertSnapshot.run]. *)
Record SnapshotParams := mkSnapshotParams {
  sp_date : Z;
  sp_marketAddr : string;
  sp_expiry : Z;
  sp_impliedApy : Q;
  sp_underlyingApy : Q;
  sp_maxApy : Q;
  sp_baseApy : Q;
  sp_tvl : Q;
  sp_daysToExpiry : Z
}.

(** The rows [ingestPendleMarket] writes for the history [results] of the
    market [address] expiring on [expiry]; their number is the value it
    returns. *)
Definition pendleRows (address : string) (expiry : Z)
    (results : list PendleHistEntry) : list SnapshotParams :=
  map (fun e =>
         {| sp_date := he_date e;
            sp_marketAddr := address;
            sp_expiry := expiry;
            sp_impliedApy := impliedApy e;
            sp_underlyingApy := underlyingApy e;
            sp_maxApy := maxApy e;
            sp_baseApy := baseApy e;
            sp_tvl := tvl e;
            sp_daysToExpiry := daysBetween (he_date e) expiry |})
      (trimEntries results).

(** The columns of a freshly written row that the spread engine reads. *)
Definition snapshotOfParams (p : SnapshotParams) : Snapshot :=
  {| snap_date := sp_date p;
     market_addr := sp_marketAddr p;
     expiry := sp_expiry p;
     implied_apy := sp_impliedApy p;
     underlying_apy := sp_underlyingApy p;
     days_to_expiry := Some (sp_daysToExpiry p) |}.

(** [new Date(ts).toISOString().split("T")[0]] for a timestamp in
    milliseconds. *)
Definition dateOfTimestamp (ts : Z) : Z := ts / 86400000.

(** [insertBtcPrices]: the table after the transaction, and the count
    returned. *)
Definition insertBtcPrices (prices : list (Z * Q))
    (btc_prices : gmap Z BtcPriceRow) : gmap Z BtcPriceRow * nat :=
  (foldl (fun t row => upsertBtcPrice (dateOfTimestamp row.1) row.2 None t)
         btc_prices prices,
   length prices).

(** The last two steps of [fullSync]: [computeTermSpreads(); compute7DayMA()]. *)
Definition recompute (daily_snapshots : list Snapshot)
    (ts : gmap Z TermSpreadRow) : option (gmap Z TermSpreadRow) :=
  ts' ← computeTermSpreads daily_snapshots ts;
  Some (compute7DayMA ts').

End Ingest.

(** ** The dashboard analytics (the [SUSDEDashboard] component file) *)

Module Dashboard.

(** [services/api]: the rows served to the dashboard, with the fields the
    analytics read. [TermSpreadWithBtc] extends [TermSpread]. *)
Record TermSpread := mkTermSpread {
  date : Z;
  term_spread : Q;
  term_spread_7dma : option Q;
  num_maturities : Z
}.

Record TermSpreadWithBtc := mkTermSpreadWithBtc {
  base : TermSpread;
  btc_price : option Q
}.

Inductive SpreadType := T_term_spread_7dma | T_term_spread | T_single_maturity.

Record CurveInterpretation := mkCurveInterpretation {
  shape : string;
  description : string;
  shapeColor : string;
  regime : string;
  regimeColor : string;
  spreadValue : Q;
  spreadType : SpreadType;
  probPositive90d : Q;
  btcOutlook : string;
  btcOutlookColor : string
}.

(** The first [if] chain of [interpretTermSpread]: shape, colour, text. *)
Definition shape_of (spreadPct : Q) : string * string * string :=
  if JS.gt spreadPct 2 then
    ("STEEP CONTANGO", "#00ff88",
     "The back-month implied yield is sharply above the front-month. The forward curve slopes steeply upward — strong conviction that funding rates will remain elevated or increase. Historically the most reliable bullish BTC signal: contango (~11% of observations) preceded 80%+ positive 90d return skew.")
  else if JS.gt spreadPct (1 # 2) then
    ("CONTANGO", "#66ffaa",
     "The back-month implied yield prices above the front-month — a forward-upsloping curve. The market expects funding rates to persist or rise. Contango has been the strongest bullish indicator for BTC forward returns.")
  else if JS.gt spreadPct (- (1 # 2)) then
    ("FLAT", "#ffd866",
     "The term structure is approximately flat — no strong directional conviction on future funding rates. This is a transition zone: the middle of the distribution produces negligible signal for forward BTC returns.")
  else if JS.gt spreadPct (- 5) then
    ("BACKWARDATION", "#ff9944",
     "The back-month implied yield is below the front-month — an inverted curve. The market expects funding rates to decline from current levels. This is the most common regime historically, centered around the mean spread.")
  else
    ("STEEP BACKWARDATION", "#ff5544",
     "The term structure is deeply inverted. The market expects a substantial decline in funding rates. Steep backwardation (<−7.5% in the report) was observed in ~8% of readings and preceded exclusively negative forward BTC return skew.").

(** The second [if] chain: regime, colour, outlook, colour. *)
Definition regime_of (spreadPct : Q) : string * string * string * string :=
  if JS.gt spreadPct 2 then
    ("STRONGLY BULLISH", "#00ff88", "Strong positive skew expected over 90-120d", "#00ff88")
  else if JS.gt spreadPct (1 # 2) then
    ("BULLISH", "#66ffaa", "Positive return skew likely over 90d", "#66ffaa")
  else if JS.gt spreadPct (- (1 # 2)) then
    ("NEUTRAL", "#ffd866", "Negligible signal — near coin-flip probability", "#ffd866")
  else if JS.gt spreadPct (- 5) then
    ("MILDLY BEARISH", "#ff9944", "Slightly negative skew, but within normal range", "#ff9944")
  else
    ("BEARISH", "#ff5544", "Negative return skew expected — drawdown risk elevated", "#ff5544").

Definition interpretTermSpread (spreadPct : Q) (spreadType : SpreadType)
    : CurveInterpretation :=
  match spreadType with
  | T_single_maturity =>
    {| shape := "SINGLE MATURITY";
       shapeColor := "#6e7681";
       description := "Only one sUSDe maturity is currently active on Pendle. Per the Blockworks methodology, a term spread requires two or more simultaneous markets with different expiry dates. The spread is recorded as zero — no directional signal can be extracted.";
       regime := "NO SIGNAL";
       regimeColor := "#6e7681";
       spreadValue := 0;
       spreadType := T_single_maturity;
       probPositive90d := 50;
       btcOutlook := "No signal — single maturity cannot produce a term spread";
       btcOutlookColor := "#6e7681" |}
  | _ =>
    let isSmoothed :=
      match spreadType with T_term_spread_7dma => true | _ => false end in
    let '(shape, shapeColor, description) := shape_of spreadPct in
    let description :=
      if isSmoothed
      then (description ++ " (Based on 7-day moving average per Blockworks methodology.)")%string
      else description in
    let '(regime, regimeColor, btcOutlook, btcOutlookColor) := regime_of spreadPct in
    let probPositive90d := JS.Math_max 5 (JS.Math_min 95 (50 + spreadPct * 8)) in
    {| shape := shape; shapeColor := shapeColor; description := description;
       regime := regime; regimeColor := regimeColor;
       spreadValue := inject_Z (JS.Math_round (spreadPct * 100)) / 100;
       spreadType := spreadType;
       probPositive90d := inject_Z (JS.Math_round (probPositive90d * 10)) / 10;
       btcOutlook := btcOutlook; btcOutlookColor := btcOutlookColor |}
  end%Q.

(** The choice of the value to classify: smoothed, then raw, then the
    single-maturity zero. [None] is the [null] curve. *)
Definition latestCurve (latestSpread : option TermSpread) : option CurveInterpretation :=
  match latestSpread with
  | None => None
  | Some latest =>
    let hasMultiMaturity := 2 <=? num_maturities latest in
    if hasMultiMaturity then
      match term_spread_7dma latest with
      | Some ma => Some (interpretTermSpread (ma * 100) T_term_spread_7dma)
      | None => Some (interpretTermSpread (term_spread latest * 100) T_term_spread)
      end
    else Some (interpretTermSpread 0 T_single_maturity)
  end.

(** *** Nearest-date price lookup *)

(** The inner loop [for (const dir of [1, -1])] at one offset. The key
    probed is [nd.toISOString().split("T")[0]] after
    [nd.setDate(nd.getDate() + offset * dir)] on a copy [nd] of
    [new Date(dateStr)]. *)
Fixpoint probe_dirs (tz : JS.TimeZone) (btcPriceMap : gmap Z Q) (d offset : Z)
    (dirs : list Z) : option Q :=
  match dirs with
  | [] => None
  | dir :: rest =>
    match btcPriceMap !! JS.shiftDate tz d (offset * dir) with
    | Some price => Some price
    | None => probe_dirs tz btcPriceMap d offset rest
    end
  end.

(** The outer loop [for (let offset = 1; offset <= 3; offset++)]. *)
Fixpoint probe_offsets (tz : JS.TimeZone) (btcPriceMap : gmap Z Q) (d : Z)
    (offsets : list Z) : option Q :=
  match offsets with
  | [] => None
  | offset :: rest =>
    match probe_dirs tz btcPriceMap d offset [1; -1] with
    | Some price => Some price
    | None => probe_offsets tz btcPriceMap d rest
    end
  end.

(** The helper inside [computeDeciles]. *)
Definition findBtcPrice (tz : JS.TimeZone) (btcPriceMap : gmap Z Q) (dateStr : Z)
    : option Q :=
  match btcPriceMap !! dateStr with
  | Some exact => Some exact
  | None => probe_offsets tz btcPriceMap dateStr [1; 2; 3]
  end.

(** The helper inside the scatter chart; the same loop. *)
Definition findPrice (tz : JS.TimeZone) (btcPriceMap : gmap Z Q) (dateStr : Z)
    : option Q :=
  match btcPriceMap !! dateStr with
  | Some exact => Some exact
  | None => probe_offsets tz btcPriceMap dateStr [1; 2; 3]
  end.

(** The 90-day forward return of one row, in percent, as both the decile
    loop and the scatter loop compute it from a lookup function [find];
    [None] when the row is skipped. The target date is
    [futureDate.toISOString().split("T")[0]] after
    [futureDate.setDate(futureDate.getDate() + 90)] on
    [new Date(row.date)]. *)
Definition forwardReturn (tz : JS.TimeZone) (find : Z → option Q)
    (row : TermSpreadWithBtc) : option Q :=
  match from_option Some (find (date (base row))) (btc_price row) with
  | None => None
  | Some currentPrice =>
    if Qle_bool currentPrice 0 then None
    else
      match find (JS.shiftDate tz (date (base row)) 90) with
      | Some futurePrice =>
        Some ((futurePrice - currentPrice) / currentPrice * 100)%Q
      | None => None
      end
  end.

(** The points of the scatter chart. *)
Definition scatterPoints (tz : JS.TimeZone) (btcPriceMap : gmap Z Q)
    (rows : list TermSpreadWithBtc) : list (Q * Q) :=
  omap (fun row =>
          fwdReturn ← forwardReturn tz (findPrice tz btcPriceMap) row;
          Some ((term_spread (base row) * 100)%Q, fwdReturn)) rows.

(** *** Decile analysis *)

(** [range] is kept as the two percentages before their formatting with
    [toFixed(1)], and [color] as its hue. *)
Record DecileRow := mkDecileRow {
  decile : Z;
  range : Q * Q;
  count : nat;
  avgSpread : Q;
  avgBtcReturn90d : option Q;
  color_hue : Z
}.

Definition sortedBySpread (spreadsWithBtc : list TermSpreadWithBtc) : list TermSpreadWithBtc :=
  JS.sort (fun a b => Qle_bool (term_spread (base a)) (term_spread (base b))) spreadsWithBtc.

(** [sorted.slice(start, end)] of decile [d] (0-based). *)
Definition decileSlice (sorted : list TermSpreadWithBtc) (d : nat) : list TermSpreadWithBtc :=
  let n := length sorted in
  let decileSize := JS.floor_div n 10 in
  let start := (d * decileSize)%nat in
  let stop := if (d =? 9)%nat then n else ((d + 1) * decileSize)%nat in
  JS.slice start stop sorted.

(** One iteration of the loop over [d]. *)
Definition decileRow (tz : JS.TimeZone) (btcPriceMap : gmap Z Q)
    (sorted : list TermSpreadWithBtc) (d : nat) : option DecileRow :=
  let slice := decileSlice sorted d in
  let avgSpread := JS.average (fun r => term_spread (base r)) slice in
  let returns : list Q :=
    omap (forwardReturn tz (findBtcPrice tz btcPriceMap)) slice in
  let avgReturn :=
    if (0 <? length returns)%nat then Some (JS.average (fun b => b) returns) else None in
  first ← slice !! 0%nat;
  last ← slice !! (length slice - 1)%nat;
  Some {| decile := Z.of_nat d + 1;
          range := ((term_spread (base first) * 100)%Q, (term_spread (base last) * 100)%Q);
          count := length slice;
          avgSpread := (avgSpread * 100)%Q;
          avgBtcReturn90d := avgReturn;
          color_hue := Z.of_nat d * 12 |}.

Definition computeDeciles (tz : JS.TimeZone) (spreadsWithBtc : list TermSpreadWithBtc)
    (btcPriceMap : gmap Z Q) : option (list DecileRow) :=
  if (length spreadsWithBtc <? 20)%nat then Some []
  else mapM (decileRow tz btcPriceMap (sortedBySpread spreadsWithBtc)) (seq 0 10).

(** *** Realized volatility *)

(** [rows]: each row with its price, [r.btc_price ?? btcPriceMap.get(r.date)],
    the rows without one filtered out. *)
Definition enrich (btcPriceMap : gmap Z Q) (termSpreadsWithBtc : list TermSpreadWithBtc)
    : list (TermSpreadWithBtc * Q) :=
  omap (fun r =>
          btc ← from_option Some (btcPriceMap !! date (base r)) (btc_price r);
          Some (r, btc)) termSpreadsWithBtc.

(** Truthiness of a number: not zero. *)
Definition truthy (x : Q) : bool := negb (Qeq_bool x 0).

(** The body of the loop over [j]: the log return pushed, if any;
    [rows[j - 1]?.btc] is undefined, hence falsy, when there is no row
    [j - 1]. *)
Definition logReturn (rows : list (TermSpreadWithBtc * Q)) (j : nat) : option R :=
  cur ← rows !! j;
  prev ← match j with O => None | S j' => rows !! j' end;
  if truthy cur.2 && truthy prev.2
  then Some (ln (Q2R cur.2 / Q2R prev.2))
  else None.

Definition Rsum (l : list R) : R := fold_left Rplus l 0%R.

(** [vol] at index [i] of [rows]. *)
Definition vol30d (rows : list (TermSpreadWithBtc * Q)) (i : nat) : option R :=
  if (30 <=? i)%nat then
    let returns : list R := omap (logReturn rows) (seq (i - 29) 30) in
    if (5 <? length returns)%nat then
      let mean := (Rsum returns / INR (length returns))%R in
      let variance :=
        (fold_left (fun a b => a + (b - mean) ^ 2) returns 0 / INR (length returns))%R in
      Some (sqrt (variance * 365) * 100)%R
    else None
  else None.

Record VolPoint := mkVolPoint {
  vp_date : Z;
  spread7dma : Q;
  vol : option R
}.

(** The data of the volatility chart. *)
Definition volSeries (btcPriceMap : gmap Z Q) (termSpreadsWithBtc : list TermSpreadWithBtc)
    : list VolPoint :=
  let rows := enrich btcPriceMap termSpreadsWithBtc in
  imap (fun i r =>
          {| vp_date := date (base r.1);
             spread7dma :=
               match term_spread_7dma (base r.1) with
               | Some ma => (ma * 100)%Q
               | None => (term_spread (base r.1) * 100)%Q
               end;
             vol := vol30d rows i |}) rows.


(** *** The price lookup map *)

(** [services/api]: a row of the price history. *)
Record BtcPrice := mkBtcPrice {
  bp_date : Z;
  bp_price : Q;
  bp_change_24h : option Q
}.

(** [btcPriceMap]: every price of the history, then the prices joined to
    the spread rows for the dates the map does not have yet. *)
Definition btcPriceMap (btcPrices : list BtcPrice)
    (termSpreadsWithBtc : list TermSpreadWithBtc) : gmap Z Q :=
  let map := foldl (fun m bp => <[bp_date bp := bp_price bp]> m) ∅ btcPrices in
  foldl (fun m r =>
           match btc_price r with
           | Some p =>
             if decide (is_Some (m !! date (base r))) then m
             else <[date (base r) := p]> m
           | None => m
           end) map termSpreadsWithBtc.

(** *** Spread statistics *)

(** [a < b], [a >= b] and [a <= b] on numbers. *)
Definition lt (a b : Q) : bool := JS.gt b a.
Definition ge (a b : Q) : bool := Qle_bool b a.
Definition le (a b : Q) : bool := Qle_bool a b.

(** [data.termSpreadsWithBtc.map(r => r.term_spread * 100)]. *)
Definition pctSpreads (rows : list TermSpreadWithBtc) : list Q :=
  map (fun r => term_spread (base r) * 100)%Q rows.





(** *** The histogram of the spread distribution *)

(** A bucket [low, low + step) with [step = 2]; [range] is kept as [low]
    before its formatting, and [mid] is [low + step / 2]. *)
Record Bucket := mkBucket {
  b_low : Z;
  b_count : nat;
  b_mid : Z
}.

(** The number of spreads [s] with [s >= low && s < low + step]. *)
Definition bucketCount (spreads : list Q) (low : Z) : nat :=
  length (filter (fun s => ge s (inject_Z low) && lt s (inject_Z (low + 2)) = true)
            spreads).

(** The loop [for (let low = minS; low < maxS; low += step)], bounded by
    [fuel] iterations. *)
Fixpoint bucketLoop (spreads : list Q) (maxS : Z) (fuel : nat) (low : Z) : list Bucket :=
  match fuel with
  | O => []
  | S fuel' =>
    if low <? maxS
    then mkBucket low (bucketCount spreads low) (low + 1)
         :: bucketLoop spreads maxS fuel' (low + 2)
    else []
  end.

(** [minS] and [maxS]: the least and greatest spreads rounded down and up
    to a multiple of the step. *)
Definition histogramBounds (s0 : Q) (rest : list Q) : Z * Z :=
  ((Qfloor (foldl JS.Math_min s0 rest / 2) * 2)%Z,
   (Qceiling (foldl JS.Math_max s0 rest / 2) * 2)%Z).

(** The data of the histogram; [None] when the series is empty and the
    chart is not rendered. The loop runs at most [maxS - minS] times. *)
Definition histogram (rows : list TermSpreadWithBtc) : option (list Bucket) :=
  match pctSpreads rows with
  | [] => None
  | s0 :: rest =>
    let '(minS, maxS) := histogramBounds s0 rest in
    Some (filter (fun b => (0 < b_count b)%nat)
            (bucketLoop (s0 :: rest) maxS (Z.to_nat (maxS - minS)) minS))
  end.

End Dashboard.

(** ** The term-structure route of the API server ([GET /api/term-structure]) *)

Module Server.
Import Db.

(** One maturity of the response, with the aggregated columns (the bare
    columns of the GROUP BY, which SQLite takes from an unspecified row of
    the group, are left out). *)
Record MaturityPoint := mkMaturityPoint {
  mp_expiry : Z;
  mp_implied_apy : Q;
  mp_underlying_apy : Q
}.

Record TermStructure := mkTermStructure {
  ts_date : Z;
  maturities : list MaturityPoint;
  termSpread : option TermSpreadRow
}.

(** [SELECT date FROM daily_snapshots WHERE date <= ? ORDER BY date DESC LIMIT 1]. *)
Definition closestDate (daily_snapshots : list Snapshot) (date : Z) : option Z :=
  head (JS.sort (fun a b => b <=? a)
          (filter (fun d => d ≤ date) (map snap_date daily_snapshots))).

(** [SELECT expiry, AVG(implied_apy), AVG(underlying_apy) FROM daily_snapshots
    WHERE date = ? GROUP BY expiry ORDER BY expiry ASC]. *)
Definition selectMaturities (daily_snapshots : list Snapshot) (d : Z) : list MaturityPoint :=
  let rows := filter (fun s => snap_date s = d) daily_snapshots in
  map (fun e =>
         let group := filter (fun s => expiry s = e) rows in
         {| mp_expiry := e;
            mp_implied_apy := JS.average implied_apy group;
            mp_underlying_apy := JS.average underlying_apy group |})
      (JS.sort Z.leb (JS.Set_of (map expiry rows))).

(** The handler, for the requested [date]. *)
Definition termStructure (daily_snapshots : list Snapshot)
    (term_spreads : gmap Z TermSpreadRow) (date : Z) : TermStructure :=
  match closestDate daily_snapshots date with
  | None => {| ts_date := date; maturities := []; termSpread := None |}
  | Some closest =>
    {| ts_date := closest;
       maturities := selectMaturities daily_snapshots closest;
       termSpread := term_spreads !! closest |}
  end.

End Server.

(** ** Notions the properties are stated with *)

Module Spec.

Fixpoint Qsum (l : list Q) : Q :=
  match l with
  | [] => 0
  | x :: l' => x + Qsum l'
  end%Q.

(** The unweighted arithmetic mean. *)
Definition Qmean (l : list Q) : Q :=
  (Qsum l / inject_Z (Z.of_nat (length l)))%Q.


(** [clamp(x, lo, hi)]. *)
Definition clamp (x lo hi : Q) : Q :=
  if Qlt_le_dec x lo then lo else if Qlt_le_dec hi x then hi else x.

(** The two families of curve shapes. *)
Definition contango_family (c : Dashboard.CurveInterpretation) : Prop :=
  Dashboard.shape c = "CONTANGO" ∨ Dashboard.shape c = "STEEP CONTANGO".

Definition backwardation_family (c : Dashboard.CurveInterpretation) : Prop :=
  Dashboard.shape c = "BACKWARDATION" ∨ Dashboard.shape c = "STEEP BACKWARDATION".

(** The keys probed around a day without a price, in probing order. *)
Definition probe_order (d : Z) : list Z :=
  [d + 1; d - 1; d + 2; d - 2; d + 3; d - 3].

(** A time zone whose offset from UTC never changes. *)
Definition fixed_offset (tz : JS.TimeZone) : Prop :=
  ∃ c, ∀ t, JS.LocalTZA_utc tz t = c ∧ JS.LocalTZA_local tz t = c.

(** The price of the first key of a list that has one. *)
Fixpoint first_priced (m : gmap Z Q) (keys : list Z) : option Q :=
  match keys with
  | [] => None
  | k :: rest =>
    match m !! k with
    | Some p => Some p
    | None => first_priced m rest
    end
  end.

Definition Rsum_list (l : list R) : R := fold_right Rplus 0%R l.

Definition Rmean (l : list R) : R := (Rsum_list l / INR (length l))%R.

(** The (population) standard deviation. *)
Definition stddev (l : list R) : R :=
  sqrt (Rmean (map (fun x => (x - Rmean l) ^ 2)%R l)).

(** The log returns of the days [start .. start + len - 1] of a price
    series, each against the day before. *)
Definition log_returns (prices : list Q) (start len : nat) : list R :=
  map (fun j => ln (Q2R (nth j prices 0%Q) / Q2R (nth (j - 1) prices 0%Q))%R)
      (seq start len).

(** The price of the last row of the history that has the date. *)
Fixpoint last_price (btcPrices : list Dashboard.BtcPrice) (d : Z) : option Q :=
  match btcPrices with
  | [] => None
  | bp :: rest =>
    match last_price rest d with
    | Some p => Some p
    | None =>
      if decide (Dashboard.bp_date bp = d) then Some (Dashboard.bp_price bp) else None
    end
  end.

(** The joined price of the first spread row that has the date and a
    price. *)
Fixpoint first_joined (rows : list Dashboard.TermSpreadWithBtc) (d : Z) : option Q :=
  match rows with
  | [] => None
  | r :: rest =>
    if decide (Dashboard.date (Dashboard.base r) = d) then
      match Dashboard.btc_price r with
      | Some p => Some p
      | None => first_joined rest d
      end
    else first_joined rest d
  end.

(** The price of the last entry of a price feed whose timestamp (in
    milliseconds) falls on the day [d]. *)
Fixpoint last_quote (prices : list (Z * Q)) (d : Z) : option Q :=
  match prices with
  | [] => None
  | row :: rest =>
    match last_quote rest d with
    | Some q => Some q
    | None =>
      if decide (d * 86400000 ≤ row.1 < (d + 1) * 86400000)
      then Some row.2 else None
    end
  end.

(** The number of steps [j] of a window of [len] steps from [start] whose
    two prices, at [j] and at [j - 1], are both non-zero. *)
Definition usable_steps (prices : list Q) (start len : nat) : nat :=
  length (filter (fun j => negb (Qeq_bool (nth j prices 0%Q) 0)
                           && negb (Qeq_bool (nth (j - 1) prices 0%Q) 0) = true)
                 (seq start len)).

(** A row has a resolvable price: its own joined price, or a price of the
    map at its date. *)
Definition resolvable (m : gmap Z Q) (r : Dashboard.TermSpreadWithBtc) : Prop :=
  is_Some (from_option Some (m !! Dashboard.date (Dashboard.base r))
             (Dashboard.btc_price r)).

#[global] Instance resolvable_dec m r : Decision (resolvable m r).
Proof. unfold resolvable. apply _. Defined.

(** The length of the run of [true] at the head of a list. *)
Fixpoint run_length (l : list bool) : nat :=
  match l with
  | true :: l' => S (run_length l')
  | _ => 0%nat
  end.

(** The number of rows immediately before row [k] of a series, counted
    backwards from row [k - 1] without interruption, that have a
    resolvable price. *)
Definition consecutive_priced_predecessors (m : gmap Z Q)
    (l : list Dashboard.TermSpreadWithBtc) (k : nat) : nat :=
  run_length (reverse (map (fun r => bool_decide (resolvable m r)) (take k l))).

End Spec.

(** ** Concrete inputs *)

Module Examples.

(** Day numbers (days since 1970-01-01): 2024-06-01 is 19875, 2024-06-02
    is 19876, 2024-07-01 is 19905, 2024-09-26 is 19992 and 2024-12-01 is
    20058. *)

(** 2024-06-01: two instruments, maturing 2024-07-01 (yield 0.04) and
    2024-12-01 (yield 0.06). *)
Definition two_maturities : list Db.Snapshot :=
  [ Db.mkSnapshot 19875 "0x107a" 19905 (4 # 100) (3 # 100) (Some 30);
    Db.mkSnapshot 19875 "0xa0ab" 20058 (6 # 100) (3 # 100) (Some 183) ].

(** 2024-06-02: the two markets that mature on 2024-09-26 are the only
    live ones, with implied yields 0.04 and 0.06. *)
Definition shared_sole_maturity : list Db.Snapshot :=
  [ Db.mkSnapshot 19876 "0x93a8" 19992 (4 # 100) (3 # 100) (Some 116);
    Db.mkSnapshot 19876 "0xd1d7" 19992 (6 # 100) (3 # 100) (Some 116) ].

(** A price map without 2024-09-01 (day 19967) but with 2024-08-30 (day
    19965) and 2024-09-02 (day 19968). *)
Definition gap_prices : gmap Z Q :=
  <[19965 := 59000%Q]> (<[19968 := 58000%Q]> ∅).

(** Twenty-five historical observations, on consecutive days from
    2024-06-01, with the spreads 0.025, 0.024, ..., 0.001. *)
Definition observations25 : list Dashboard.TermSpreadWithBtc :=
  map (fun i : nat =>
         Dashboard.mkTermSpreadWithBtc
           (Dashboard.mkTermSpread (19875 + Z.of_nat i)
              (inject_Z (25 - Z.of_nat i) / 1000)%Q None 2)
           None)
      (seq 0 25).

(** Thirty-one observations on consecutive days from 2024-06-01, each with
    its own price, 60000 + 100 i on day i. *)
Definition observations31 : list Dashboard.TermSpreadWithBtc :=
  map (fun i : nat =>
         Dashboard.mkTermSpreadWithBtc
           (Dashboard.mkTermSpread (19875 + Z.of_nat i) (1 # 100) None 2)
           (Some (inject_Z (60000 + 100 * Z.of_nat i))))
      (seq 0 31).

(** The table of eight consecutive days from 2024-06-01 with the spreads
    0.00, 0.01, ..., 0.07. *)
Definition spread_row (s : Q) : Db.TermSpreadRow :=
  Db.mkTermSpreadRow "0x107a" 19905 (4 # 100) "0xa0ab" 20058 ((4 # 100) + s) s
    None (3 # 100) 2 None None None.

Definition spread_table : gmap Z Db.TermSpreadRow :=
  list_to_map
    (map (fun i : nat =>
            (19875 + Z.of_nat i, spread_row (inject_Z (Z.of_nat i) / 100)))
         (seq 0 8)).

(** A stored row of 2024-06-01 that has been smoothed and classified, and
    the parameters of a re-run of the upsert for that date. *)
Definition stored_row : Db.TermSpreadRow :=
  Db.mkTermSpreadRow "0x107a" 19905 (4 # 100) "0xa0ab" 20058 (6 # 100) (2 # 100)
    (Some (1 # 100)) (3 # 100) 2 (Some "BULLISH")
    (Some "Positive return skew likely over 90d") (Some 58%Q).

Definition stored_table : gmap Z Db.TermSpreadRow := {[ 19875 := stored_row ]}.

(** Europe/Berlin in 2024: UTC+1, and UTC+2 from 2024-03-31T01:00Z (day
    19813; 02:00 local time becomes 03:00) until 2024-10-27T01:00Z (day
    20023; 03:00 local time becomes 02:00). A local time that the spring
    transition skips is read with the offset in force before it, and one
    that the autumn transition repeats as the earlier of its two
    instants. *)
Definition Europe_Berlin_2024 : JS.TimeZone :=
  JS.mkTimeZone
    (fun t => if t <? 19813 * 86400000 + 3600000 then 3600000
              else if t <? 20023 * 86400000 + 3600000 then 7200000
              else 3600000)
    (fun t => if t <? 19813 * 86400000 + 3 * 3600000 then 3600000
              else if t <? 20023 * 86400000 + 3 * 3600000 then 7200000
              else 3600000).

(** A price map with a single price, on 2024-04-02 (day 19815), three
    days after 2024-03-30 (day 19812). *)
Definition price_three_days_ahead : gmap Z Q := {[ 19815 := 70000%Q ]}.

(** Thirty-two observations on consecutive days from 2024-06-01; day i has
    the price 60000 + 100 i, but for day 15, which has none. *)
Definition observations32_gap : list Dashboard.TermSpreadWithBtc :=
  map (fun i : nat =>
         Dashboard.mkTermSpreadWithBtc
           (Dashboard.mkTermSpread (19875 + Z.of_nat i) (1 # 100) None 2)
           (if (i =? 15)%nat then None
            else Some (inject_Z (60000 + 100 * Z.of_nat i))))
      (seq 0 32).

Definition rerun_params : Db.TermSpreadParams :=
  Db.mkTermSpreadParams 19875 "0x107a" 19905 (5 # 100) "0xa0ab" 20058 (8 # 100)
    (3 # 100) (3 # 100) 2.

End Examples.

(** * Properties *)

(** ** Facts about the built-ins *)

Section SortFacts.
Context {A : Type} (leb : A → A → bool).

Lemma insert_sorted_perm x l : JS.insert_sorted leb x l ≡ₚ x :: l.
Proof.
  induction l as [|y l IH]; simpl; [done|].
  destruct (leb x y); [done|]. rewrite IH. apply Permutation_swap.
Qed.

Lemma sort_perm l : JS.sort leb l ≡ₚ l.
Proof.
  induction l as [|x l IH]; simpl; [done|].
  rewrite insert_sorted_perm. by f_equiv.
Qed.

Lemma sort_length l : length (JS.sort leb l) = length l.
Proof. apply Permutation_length, sort_perm. Qed.

Lemma elem_of_sort x l : x ∈ JS.sort leb l ↔ x ∈ l.
Proof. by rewrite sort_perm. Qed.

Hypothesis leb_total : ∀ x y, leb x y = true ∨ leb y x = true.
Hypothesis leb_trans : ∀ x y z, leb x y = true → leb y z = true → leb x z = true.

Lemma insert_sorted_sorted x l :
  StronglySorted (fun a b => leb a b = true) l →
  StronglySorted (fun a b => leb a b = true) (JS.insert_sorted leb x l).
Proof.
  induction 1 as [|y l Hs IH Hy]; simpl.
  - repeat constructor.
  - destruct (leb x y) eqn:Hxy.
    + constructor; [by constructor|].
      constructor; [done|].
      eapply Forall_impl; [exact Hy|]. intros z Hz; simpl in Hz. eauto.
    + constructor; [done|].
      rewrite insert_sorted_perm. constructor; [|done].
      destruct (leb_total x y); congruence.
Qed.

Lemma sort_sorted l : StronglySorted (fun a b => leb a b = true) (JS.sort leb l).
Proof.
  induction l as [|x l IH]; simpl; [constructor|].
  by apply insert_sorted_sorted.
Qed.
End SortFacts.

(** The first element of a sorted array of day numbers is its least one,
    the last its greatest. *)
Lemma sorted_first_least (l : list Z) lo :
  StronglySorted (fun a b => (a <=? b) = true) l →
  l !! 0%nat = Some lo → ∀ e, e ∈ l → lo ≤ e.
Proof.
  intros Hs Hlo e He. destruct Hs as [|x l Hs Hx]; [done|].
  simpl in Hlo. injection Hlo as ->.
  apply elem_of_cons in He as [->|He]; [lia|].
  rewrite Forall_forall in Hx. apply Hx in He. lia.
Qed.

Lemma sorted_last_greatest (l : list Z) hi :
  StronglySorted (fun a b => (a <=? b) = true) l →
  l !! (length l - 1)%nat = Some hi → ∀ e, e ∈ l → e ≤ hi.
Proof.
  induction 1 as [|x l Hs IH Hx]; intros Hhi e He; [done|].
  destruct l as [|y l'].
  - simpl in Hhi. injection Hhi as ->.
    apply elem_of_cons in He as [->|He]; [lia|]. by apply elem_of_nil in He.
  - assert (Hl : (y :: l') !! (length (y :: l') - 1)%nat = Some hi).
    { simpl in *. by rewrite Nat.sub_0_r in *. }
    apply elem_of_cons in He as [->|He]; [|by apply IH].
    rewrite Forall_forall in Hx.
    assert (Hin : hi ∈ y :: l') by (by eapply list_elem_of_lookup_2).
    apply Hx in Hin. lia.
Qed.

Lemma Zleb_total (x y : Z) : (x <=? y) = true ∨ (y <=? x) = true.
Proof. lia. Qed.

Lemma Zleb_trans (x y z : Z) : (x <=? y) = true → (y <=? z) = true → (x <=? z) = true.
Proof. lia. Qed.

Lemma elem_of_Set_of x l : x ∈ JS.Set_of l ↔ x ∈ l.
Proof.
  induction l as [|y l IH]; simpl; [done|].
  rewrite !elem_of_cons, list_elem_of_filter, IH.
  destruct (decide (x = y)); intuition.
Qed.

Lemma NoDup_Set_of l : NoDup (JS.Set_of l).
Proof.
  induction l as [|y l IH]; simpl; constructor.
  - rewrite list_elem_of_filter. intros [Hne _]. by apply Hne.
  - by apply NoDup_filter.
Qed.

(** The length of [[...new Set(xs)]] is the number of distinct elements. *)
Lemma Set_of_length l : length (JS.Set_of l) = size (list_to_set (C := gset Z) l).
Proof.
  rewrite <- (size_list_to_set (C := gset Z)) by apply NoDup_Set_of.
  f_equal. apply set_eq. intros x.
  by rewrite !elem_of_list_to_set, elem_of_Set_of.
Qed.

Lemma reduce_sum_acc {A} (f : A → Q) (l : list A) (a : Q) :
  (fold_left (fun sum r => sum + f r) l a == a + Spec.Qsum (map f l))%Q.
Proof.
  revert a. induction l as [|x l IH]; intros a; simpl.
  - ring.
  - rewrite IH. ring.
Qed.

(** [reduce(...) / length] is the arithmetic mean. *)
Lemma average_mean {A} (f : A → Q) (l : list A) :
  (JS.average f l == Spec.Qmean (map f l))%Q.
Proof.
  unfold JS.average, JS.reduce_sum, Spec.Qmean.
  rewrite reduce_sum_acc, length_map. apply Qdiv_comp; [ring|reflexivity].
Qed.

(** ** The prepared statements on [term_spreads] *)

Lemma upsert_lookup_eq p (ts : gmap Z Db.TermSpreadRow) :
  Db.upsertTermSpread p ts !! Db.p_date p =
  Some (match ts !! Db.p_date p with
        | Some r => Db.conflict_update p r
        | None => Db.inserted_row p
        end).
Proof.
  unfold Db.upsertTermSpread. destruct (ts !! Db.p_date p); apply lookup_insert_eq.
Qed.

Lemma upsert_lookup_ne p (ts : gmap Z Db.TermSpreadRow) d :
  d ≠ Db.p_date p → Db.upsertTermSpread p ts !! d = ts !! d.
Proof.
  intros Hne. unfold Db.upsertTermSpread.
  destruct (ts !! Db.p_date p); by apply lookup_insert_ne.
Qed.

(** C10. Re-running the upsert for a date that already has a row replaces
    the nine spread-derived columns by the bound parameters and leaves the
    smoothed spread and the regime, outlook and probability columns as
    they were; rows of other dates are untouched. The smoothed column is
    written by [updateTermSpread7dma] alone, which changes no other
    column, and the regime columns by [updateRegime] alone, which changes
    no other column. *)
Theorem upsert_conflict_frame (p : Db.TermSpreadParams)
    (ts : gmap Z Db.TermSpreadRow) (r : Db.TermSpreadRow) :
  ts !! Db.p_date p = Some r →
  (∃ r', Db.upsertTermSpread p ts !! Db.p_date p = Some r' ∧
     Db.front_addr r' = Db.p_frontAddr p ∧
     Db.front_expiry r' = Db.p_frontExpiry p ∧
     Db.front_implied r' = Db.p_frontImplied p ∧
     Db.back_addr r' = Db.p_backAddr p ∧
     Db.back_expiry r' = Db.p_backExpiry p ∧
     Db.back_implied r' = Db.p_backImplied p ∧
     Db.term_spread r' = Db.p_termSpread p ∧
     Db.ts_underlying_apy r' = Db.p_underlyingApy p ∧
     Db.num_maturities r' = Db.p_numMaturities p ∧
     Db.term_spread_7dma r' = Db.term_spread_7dma r ∧
     Db.regime r' = Db.regime r ∧
     Db.btc_outlook r' = Db.btc_outlook r ∧
     Db.prob_positive_90d r' = Db.prob_positive_90d r) ∧
  (∀ d, d ≠ Db.p_date p → Db.upsertTermSpread p ts !! d = ts !! d) ∧
  (∀ v, ∃ r',
     Db.updateTermSpread7dma (Db.p_date p) v ts !! Db.p_date p = Some r' ∧
     Db.term_spread_7dma r' = Some v ∧
     r' = Db.set_7dma v r ∧
     Db.regime r' = Db.regime r ∧
     Db.btc_outlook r' = Db.btc_outlook r ∧
     Db.prob_positive_90d r' = Db.prob_positive_90d r ∧
     Db.term_spread r' = Db.term_spread r) ∧
  (∀ rg ol pr, ∃ r',
     Db.updateRegime (Db.p_date p) rg ol pr ts !! Db.p_date p = Some r' ∧
     Db.regime r' = rg ∧ Db.btc_outlook r' = ol ∧ Db.prob_positive_90d r' = pr ∧
     Db.term_spread_7dma r' = Db.term_spread_7dma r ∧
     Db.term_spread r' = Db.term_spread r).
Proof.
  intros Hr. repeat split.
  - exists (Db.conflict_update p r).
    rewrite upsert_lookup_eq, Hr. by repeat split.
  - intros d Hd. by apply upsert_lookup_ne.
  - intros v. exists (Db.set_7dma v r). unfold Db.updateTermSpread7dma.
    rewrite lookup_alter_eq, Hr. by repeat split.
  - intros rg ol pr. exists (Db.set_regime rg ol pr r). unfold Db.updateRegime.
    rewrite lookup_alter_eq, Hr. by repeat split.
Qed.

Lemma upsert_conflict_frame_witness :
  let p := Examples.rerun_params in
  let ts := Examples.stored_table in
  let r := Examples.stored_row in
  (∃ r', Db.upsertTermSpread p ts !! Db.p_date p = Some r' ∧
     Db.front_addr r' = Db.p_frontAddr p ∧
     Db.front_expiry r' = Db.p_frontExpiry p ∧
     Db.front_implied r' = Db.p_frontImplied p ∧
     Db.back_addr r' = Db.p_backAddr p ∧
     Db.back_expiry r' = Db.p_backExpiry p ∧
     Db.back_implied r' = Db.p_backImplied p ∧
     Db.term_spread r' = Db.p_termSpread p ∧
     Db.ts_underlying_apy r' = Db.p_underlyingApy p ∧
     Db.num_maturities r' = Db.p_numMaturities p ∧
     Db.term_spread_7dma r' = Db.term_spread_7dma r ∧
     Db.regime r' = Db.regime r ∧
     Db.btc_outlook r' = Db.btc_outlook r ∧
     Db.prob_positive_90d r' = Db.prob_positive_90d r) ∧
  (∀ d, d ≠ Db.p_date p → Db.upsertTermSpread p ts !! d = ts !! d) ∧
  (∀ v, ∃ r',
     Db.updateTermSpread7dma (Db.p_date p) v ts !! Db.p_date p = Some r' ∧
     Db.term_spread_7dma r' = Some v ∧
     r' = Db.set_7dma v r ∧
     Db.regime r' = Db.regime r ∧
     Db.btc_outlook r' = Db.btc_outlook r ∧
     Db.prob_positive_90d r' = Db.prob_positive_90d r ∧
     Db.term_spread r' = Db.term_spread r) ∧
  (∀ rg ol pr, ∃ r',
     Db.updateRegime (Db.p_date p) rg ol pr ts !! Db.p_date p = Some r' ∧
     Db.regime r' = rg ∧ Db.btc_outlook r' = ol ∧ Db.prob_positive_90d r' = pr ∧
     Db.term_spread_7dma r' = Db.term_spread_7dma r ∧
     Db.term_spread r' = Db.term_spread r).
Proof.
  apply (upsert_conflict_frame Examples.rerun_params Examples.stored_table
           Examples.stored_row).
  vm_compute. reflexivity.
Defined.

(** ** The spread engine *)

Section SpreadEngine.
Import Db Ingest.
Variable daily_snapshots : list Snapshot.

Lemma elem_of_selectSnapshots s d :
  s ∈ selectSnapshots daily_snapshots d ↔
  s ∈ daily_snapshots ∧ snap_date s = d ∧ dte_positive s = true.
Proof.
  unfold selectSnapshots. rewrite elem_of_sort, list_elem_of_filter. tauto.
Qed.

Lemma uniqueExpiries_sorted d :
  StronglySorted (fun a b => (a <=? b) = true)
    (JS.sort Z.leb (JS.Set_of (map expiry (selectSnapshots daily_snapshots d)))).
Proof. apply sort_sorted; [apply Zleb_total|apply Zleb_trans]. Qed.

Lemma elem_of_uniqueExpiries e (l : list Snapshot) :
  e ∈ JS.sort Z.leb (JS.Set_of (map expiry l)) ↔ e ∈ map expiry l.
Proof. by rewrite elem_of_sort, elem_of_Set_of. Qed.

Lemma uniqueExpiries_length (l : list Snapshot) :
  length (JS.sort Z.leb (JS.Set_of (map expiry l))) =
  size (list_to_set (C := gset Z) (map expiry l)).
Proof. by rewrite sort_length, Set_of_length. Qed.

(** Every maturity present has at least one snapshot in its leg. *)
Lemma leg_first (l : list Snapshot) e :
  e ∈ map expiry l → is_Some (filter (fun s => expiry s = e) l !! 0%nat).
Proof.
  intros He. apply (list_elem_of_fmap_1 expiry) in He as (s & -> & Hs).
  assert (Hin : s ∈ filter (fun s' => expiry s' = expiry s) l)
    by (by apply list_elem_of_filter).
  destruct (filter _ l); [by apply elem_of_nil in Hin|]. by eexists.
Qed.

(** The loop body on a date with at least two distinct live maturities. *)
Lemma processDate_multi ts d :
  let snapshots := selectSnapshots daily_snapshots d in
  let uniqueExpiries := JS.sort Z.leb (JS.Set_of (map expiry snapshots)) in
  (2 ≤ length uniqueExpiries)%nat →
  ∃ lo hi front0 back0,
    uniqueExpiries !! 0%nat = Some lo ∧
    uniqueExpiries !! (length uniqueExpiries - 1)%nat = Some hi ∧
    filter (fun s => expiry s = lo) snapshots !! 0%nat = Some front0 ∧
    filter (fun s => expiry s = hi) snapshots !! 0%nat = Some back0 ∧
    processDate daily_snapshots ts d =
    Some (upsertTermSpread
            {| p_date := d;
               p_frontAddr := market_addr front0;
               p_frontExpiry := lo;
               p_frontImplied :=
                 JS.average implied_apy (filter (fun s => expiry s = lo) snapshots);
               p_backAddr := market_addr back0;
               p_backExpiry := hi;
               p_backImplied :=
                 JS.average implied_apy (filter (fun s => expiry s = hi) snapshots);
               p_termSpread :=
                 (JS.average implied_apy (filter (fun s => expiry s = hi) snapshots)
                  - JS.average implied_apy (filter (fun s => expiry s = lo) snapshots))%Q;
               p_underlyingApy := underlying_apy front0;
               p_numMaturities := Z.of_nat (length uniqueExpiries) |} ts).
Proof.
  intros snapshots uniqueExpiries Hlen.
  destruct (lookup_lt_is_Some_2 uniqueExpiries 0%nat) as [lo Hlo]; [lia|].
  destruct (lookup_lt_is_Some_2 uniqueExpiries (length uniqueExpiries - 1)%nat)
    as [hi Hhi]; [lia|].
  destruct (leg_first snapshots lo) as [front0 Hf].
  { apply elem_of_uniqueExpiries. by eapply list_elem_of_lookup_2. }
  destruct (leg_first snapshots hi) as [back0 Hb].
  { apply elem_of_uniqueExpiries. by eapply list_elem_of_lookup_2. }
  exists lo, hi, front0, back0. repeat (split; [done|]).
  unfold processDate. fold snapshots.
  destruct snapshots as [|snap rest] eqn:Hsn.
  { subst uniqueExpiries. simpl in Hlen. lia. }
  fold uniqueExpiries.
  destruct (2 <=? length uniqueExpiries)%nat eqn:Hge.
  2: { apply Nat.leb_gt in Hge. lia. }
  rewrite Hlo. simpl. rewrite Hhi. simpl. rewrite Hf. simpl. rewrite Hb. done.
Qed.

Lemma processDate_result ts d :
  processDate daily_snapshots ts d = Some ts ∨
  ∃ p, p_date p = d ∧ processDate daily_snapshots ts d = Some (upsertTermSpread p ts).
Proof.
  destruct (selectSnapshots daily_snapshots d) as [|snap rest] eqn:Hsn.
  { left. unfold processDate. by rewrite Hsn. }
  right.
  destruct (decide (2 ≤ length (JS.sort Z.leb
              (JS.Set_of (map expiry (selectSnapshots daily_snapshots d)))))%nat)
    as [Hge|Hlt].
  - destruct (processDate_multi ts d Hge) as (lo & hi & f0 & b0 & _ & _ & _ & _ & ->).
    eexists. split; [|reflexivity]. done.
  - rewrite Hsn in Hlt. apply Nat.nle_gt, Nat.leb_gt in Hlt.
    eexists. split; [|unfold processDate; rewrite Hsn, Hlt; reflexivity]. done.
Qed.

Lemma processDate_frame ts ts' d d' :
  processDate daily_snapshots ts d = Some ts' → d' ≠ d → ts' !! d' = ts !! d'.
Proof.
  intros Hp Hne.
  destruct (processDate_result ts d) as [H|(p & Hd & H)];
    rewrite H in Hp; injection Hp as <-; [done|].
  apply upsert_lookup_ne. congruence.
Qed.

Lemma computeMany_total dates ts :
  is_Some (computeMany daily_snapshots dates ts).
Proof.
  revert ts. induction dates as [|d dates IH]; intros ts; simpl; [by eexists|].
  destruct (processDate_result ts d) as [H|(p & _ & H)]; rewrite H; simpl; apply IH.
Qed.

Lemma computeMany_frame dates ts ts' d :
  d ∉ dates → computeMany daily_snapshots dates ts = Some ts' → ts' !! d = ts !! d.
Proof.
  revert ts. induction dates as [|d0 dates IH]; intros ts Hnin Hc; simpl in Hc.
  - by injection Hc as <-.
  - apply not_elem_of_cons in Hnin as [Hne Hnin].
    destruct (processDate daily_snapshots ts d0) as [ts1|] eqn:Hp; [|done].
    simpl in Hc. rewrite (IH ts1 Hnin Hc). by eapply processDate_frame.
Qed.

(** After the whole batch, the row of a processed date is the one its
    own iteration wrote. *)
Lemma computeMany_lookup dates ts d :
  NoDup dates → d ∈ dates →
  ∃ ts0 ts1 ts',
    computeMany daily_snapshots dates ts = Some ts' ∧
    processDate daily_snapshots ts0 d = Some ts1 ∧
    ts' !! d = ts1 !! d.
Proof.
  revert ts. induction dates as [|d0 dates IH]; intros ts Hnd Hin.
  { by apply elem_of_nil in Hin. }
  apply NoDup_cons in Hnd as [Hd0 Hnd]. simpl.
  destruct (processDate daily_snapshots ts d0) as [ts1|] eqn:Hp.
  2: { destruct (processDate_result ts d0) as [H|(p & _ & H)]; congruence. }
  simpl. apply elem_of_cons in Hin as [->|Hin].
  - destruct (computeMany_total dates ts1) as [ts' Hc].
    exists ts, ts1, ts'. repeat split; [done..|].
    by eapply computeMany_frame.
  - by apply IH.
Qed.

Lemma selectDates_NoDup : NoDup (selectDates daily_snapshots).
Proof.
  unfold selectDates. rewrite sort_perm. apply NoDup_Set_of.
Qed.

Lemma elem_of_selectDates d :
  d ∈ selectDates daily_snapshots ↔ d ∈ map snap_date daily_snapshots.
Proof. unfold selectDates. by rewrite elem_of_sort, elem_of_Set_of. Qed.

End SpreadEngine.

(** C1. On every date with at least two distinct maturities among the
    snapshots with a positive number of days to expiry, the batch
    terminates normally and leaves a row for that date whose front leg is
    the least maturity and whose back leg the greatest one, whose front and
    back implied yields are the arithmetic means of the implied yields of
    the snapshots of that maturity, whose spread is the back yield minus
    the front yield as stored, and whose maturity count is the number of
    distinct maturities. *)
Theorem multi_maturity_spread (daily_snapshots : list Db.Snapshot)
    (ts : gmap Z Db.TermSpreadRow) (d : Z) :
  let live := Ingest.selectSnapshots daily_snapshots d in
  let maturities := map Db.expiry live in
  (2 ≤ size (list_to_set (C := gset Z) maturities))%nat →
  ∃ ts' r lo hi,
    Ingest.computeTermSpreads daily_snapshots ts = Some ts' ∧
    ts' !! d = Some r ∧
    lo ∈ maturities ∧ (∀ e, e ∈ maturities → lo ≤ e) ∧
    hi ∈ maturities ∧ (∀ e, e ∈ maturities → e ≤ hi) ∧
    Db.front_expiry r = lo ∧ Db.back_expiry r = hi ∧
    Db.front_implied r =
      JS.average Db.implied_apy (filter (fun s => Db.expiry s = lo) live) ∧
    Db.back_implied r =
      JS.average Db.implied_apy (filter (fun s => Db.expiry s = hi) live) ∧
    (Db.front_implied r ==
       Spec.Qmean (map Db.implied_apy (filter (fun s => Db.expiry s = lo) live)))%Q ∧
    (Db.back_implied r ==
       Spec.Qmean (map Db.implied_apy (filter (fun s => Db.expiry s = hi) live)))%Q ∧
    Db.term_spread r = (Db.back_implied r - Db.front_implied r)%Q ∧
    Db.num_maturities r = Z.of_nat (size (list_to_set (C := gset Z) maturities)).
Proof.
  intros live maturities Hsize.
  subst maturities. rewrite <- uniqueExpiries_length in *.
  destruct (processDate_multi daily_snapshots ts d Hsize)
    as (lo & hi & f0 & b0 & Hlo & Hhi & Hf & _ & _).
  fold live in Hlo, Hhi, Hf.
  assert (Hd : d ∈ Ingest.selectDates daily_snapshots).
  { apply elem_of_selectDates.
    apply list_elem_of_lookup_2, list_elem_of_filter in Hf as [_ Hf0].
    apply elem_of_selectSnapshots in Hf0 as (Hin & <- & _).
    by apply list_elem_of_fmap_2. }
  destruct (computeMany_lookup daily_snapshots _ ts d
              (selectDates_NoDup daily_snapshots) Hd)
    as (ts0 & ts1 & ts' & Hc & Hp & Hrow).
  destruct (processDate_multi daily_snapshots ts0 d Hsize)
    as (lo' & hi' & f0' & b0' & Hlo' & Hhi' & _ & _ & Hp').
  fold live in Hlo', Hhi', Hp'.
  rewrite Hlo in Hlo'. injection Hlo' as <-.
  rewrite Hhi in Hhi'. injection Hhi' as <-.
  rewrite Hp' in Hp. injection Hp as <-.
  pose proof (uniqueExpiries_sorted daily_snapshots d) as Hsorted.
  fold live in Hsorted.
  match type of Hrow with _ = Db.upsertTermSpread ?p _ !! _ =>
    change d with (Db.p_date p) in Hrow at 2 end.
  rewrite upsert_lookup_eq in Hrow. simpl in Hrow.
  eexists ts', _, lo, hi. split; [exact Hc|]. split; [exact Hrow|].
  split. { eapply elem_of_uniqueExpiries, list_elem_of_lookup_2, Hlo. }
  split. { intros e He. eapply sorted_first_least; [exact Hsorted|exact Hlo|].
           by apply elem_of_uniqueExpiries. }
  split. { eapply elem_of_uniqueExpiries, list_elem_of_lookup_2, Hhi. }
  split. { intros e He. eapply sorted_last_greatest; [exact Hsorted|exact Hhi|].
           by apply elem_of_uniqueExpiries. }
  destruct (ts0 !! d); simpl; repeat split; try reflexivity; apply average_mean.
Qed.

Lemma multi_maturity_spread_witness :
  ∃ ts' r lo hi,
    Ingest.computeTermSpreads Examples.two_maturities ∅ = Some ts' ∧
    ts' !! 19875 = Some r ∧
    lo ∈ map Db.expiry (Ingest.selectSnapshots Examples.two_maturities 19875) ∧
    (∀ e, e ∈ map Db.expiry (Ingest.selectSnapshots Examples.two_maturities 19875) → lo ≤ e) ∧
    hi ∈ map Db.expiry (Ingest.selectSnapshots Examples.two_maturities 19875) ∧
    (∀ e, e ∈ map Db.expiry (Ingest.selectSnapshots Examples.two_maturities 19875) → e ≤ hi) ∧
    Db.front_expiry r = lo ∧ Db.back_expiry r = hi ∧
    Db.front_implied r =
      JS.average Db.implied_apy
        (filter (fun s => Db.expiry s = lo)
           (Ingest.selectSnapshots Examples.two_maturities 19875)) ∧
    Db.back_implied r =
      JS.average Db.implied_apy
        (filter (fun s => Db.expiry s = hi)
           (Ingest.selectSnapshots Examples.two_maturities 19875)) ∧
    (Db.front_implied r ==
       Spec.Qmean (map Db.implied_apy
         (filter (fun s => Db.expiry s = lo)
            (Ingest.selectSnapshots Examples.two_maturities 19875))))%Q ∧
    (Db.back_implied r ==
       Spec.Qmean (map Db.implied_apy
         (filter (fun s => Db.expiry s = hi)
            (Ingest.selectSnapshots Examples.two_maturities 19875))))%Q ∧
    Db.term_spread r = (Db.back_implied r - Db.front_implied r)%Q ∧
    Db.num_maturities r =
      Z.of_nat (size (list_to_set (C := gset Z)
        (map Db.expiry (Ingest.selectSnapshots Examples.two_maturities 19875)))).
Proof.
  apply (multi_maturity_spread Examples.two_maturities ∅ 19875).
  vm_compute. lia.
Defined.

(** The scenario of the specification: yields 0.04 and 0.06 give the spread
    0.02 with two maturities. *)
Example two_maturities_row :
  ∃ ts' r,
    Ingest.computeTermSpreads Examples.two_maturities ∅ = Some ts' ∧
    ts' !! 19875 = Some r ∧
    (Db.term_spread r == 2 # 100)%Q ∧ Db.num_maturities r = 2.
Proof. vm_compute. eexists _, _. repeat split; reflexivity. Qed.

(** On a date with exactly one distinct live maturity the row written has
    maturity count 1, spread 0 and identical legs, all taken from the first
    live snapshot of the query. *)
Lemma single_maturity_record (daily_snapshots : list Db.Snapshot)
    (ts : gmap Z Db.TermSpreadRow) (d : Z) :
  let live := Ingest.selectSnapshots daily_snapshots d in
  size (list_to_set (C := gset Z) (map Db.expiry live)) = 1%nat →
  ∃ ts' r snap,
    Ingest.computeTermSpreads daily_snapshots ts = Some ts' ∧
    ts' !! d = Some r ∧
    live !! 0%nat = Some snap ∧
    Db.num_maturities r = 1 ∧ Db.term_spread r = 0%Q ∧
    Db.front_addr r = Db.market_addr snap ∧ Db.back_addr r = Db.market_addr snap ∧
    Db.front_expiry r = Db.expiry snap ∧ Db.back_expiry r = Db.expiry snap ∧
    Db.front_implied r = Db.implied_apy snap ∧
    Db.back_implied r = Db.implied_apy snap.
Proof.
  intros live Hsize. rewrite <- uniqueExpiries_length in Hsize.
  destruct live as [|snap rest] eqn:Hlive; [done|].
  assert (Hsingle : ∀ t, Ingest.processDate daily_snapshots t d =
    Some (Db.upsertTermSpread
            {| Db.p_date := d;
               Db.p_frontAddr := Db.market_addr snap;
               Db.p_frontExpiry := Db.expiry snap;
               Db.p_frontImplied := Db.implied_apy snap;
               Db.p_backAddr := Db.market_addr snap;
               Db.p_backExpiry := Db.expiry snap;
               Db.p_backImplied := Db.implied_apy snap;
               Db.p_termSpread := 0%Q;
               Db.p_underlyingApy := Db.underlying_apy snap;
               Db.p_numMaturities := 1 |} t)).
  { intros t. unfold Ingest.processDate. fold live. rewrite Hlive, Hsize. done. }
  assert (Hd : d ∈ Ingest.selectDates daily_snapshots).
  { apply elem_of_selectDates.
    assert (Hin : snap ∈ live) by (rewrite Hlive; by left).
    apply elem_of_selectSnapshots in Hin as (Hin & <- & _).
    by apply list_elem_of_fmap_2. }
  destruct (computeMany_lookup daily_snapshots _ ts d
              (selectDates_NoDup daily_snapshots) Hd)
    as (ts0 & ts1 & ts' & Hc & Hp & Hrow).
  rewrite Hsingle in Hp. injection Hp as <-.
  match type of Hrow with _ = Db.upsertTermSpread ?p _ !! _ =>
    change d with (Db.p_date p) in Hrow at 2 end.
  rewrite upsert_lookup_eq in Hrow. simpl in Hrow.
  eexists ts', _, snap. split; [exact Hc|]. split; [exact Hrow|].
  destruct (ts0 !! d); simpl; repeat split; reflexivity.
Qed.

(** C2, at the input where the code departs from it. On 2024-06-02 the two
    markets maturing on 2024-09-26 are the only live ones, with implied
    yields 0.04 and 0.06: the row written has maturity count 1, spread 0
    and identical legs, but its leg yield is 0.04, the yield of the first
    snapshot, and not the mean 0.05 of the two. *)
Theorem single_maturity_leg_not_averaged :
  let live := Ingest.selectSnapshots Examples.shared_sole_maturity 19876 in
  size (list_to_set (C := gset Z) (map Db.expiry live)) = 1%nat ∧
  length live = 2%nat ∧
  (Spec.Qmean (map Db.implied_apy live) == 5 # 100)%Q ∧
  ∃ ts' r,
    Ingest.computeTermSpreads Examples.shared_sole_maturity ∅ = Some ts' ∧
    ts' !! 19876 = Some r ∧
    Db.num_maturities r = 1 ∧ Db.term_spread r = 0%Q ∧
    Db.front_addr r = Db.back_addr r ∧
    Db.front_implied r = (4 # 100)%Q ∧ Db.back_implied r = (4 # 100)%Q ∧
    ¬ (Db.front_implied r == Spec.Qmean (map Db.implied_apy live))%Q.
Proof.
  vm_compute. repeat split.
  eexists _, _. repeat split; try reflexivity. discriminate.
Qed.

(** ** The smoothing pass *)

Section Smoothing.
Import Db Ingest.

Lemma elem_of_selectSpreads (ts : gmap Z TermSpreadRow) d s :
  (d, s) ∈ selectSpreads ts ↔ ∃ r, ts !! d = Some r ∧ s = term_spread r.
Proof.
  unfold selectSpreads. rewrite elem_of_sort, list_elem_of_fmap. split.
  - intros ([k r] & Heq & Hin). apply elem_of_map_to_list in Hin.
    simpl in Heq. injection Heq as -> ->. by exists r.
  - intros (r & Hr & ->). exists (d, r). split; [done|].
    by apply elem_of_map_to_list.
Qed.

Lemma selectSpreads_dates (ts : gmap Z TermSpreadRow) :
  (selectSpreads ts).*1 ≡ₚ (map_to_list ts).*1.
Proof.
  unfold selectSpreads. rewrite sort_perm, <- list_fmap_compose.
  reflexivity.
Qed.

Lemma selectSpreads_NoDup (ts : gmap Z TermSpreadRow) : NoDup (selectSpreads ts).*1.
Proof. rewrite selectSpreads_dates. apply NoDup_fst_map_to_list. Qed.

(** The series is in ascending order of date. *)
Lemma selectSpreads_sorted (ts : gmap Z TermSpreadRow) :
  StronglySorted (fun a b => a.1 ≤ b.1) (selectSpreads ts).
Proof.
  unfold selectSpreads.
  match goal with |- StronglySorted _ (JS.sort ?leb ?l) =>
    pose proof (sort_sorted leb (fun x y => Zleb_total x.1 y.1)
                  (fun x y z => Zleb_trans x.1 y.1 z.1) l) as Hs
  end.
  induction Hs as [|x l Hs IH Hx]; constructor; [done|].
  eapply Forall_impl; [exact Hx|]. intros y Hy; simpl in Hy. lia.
Qed.

Lemma updateMany_lookup_notin (us : list (Z * Q)) (ts : gmap Z TermSpreadRow) d :
  d ∉ us.*1 → updateMany us ts !! d = ts !! d.
Proof.
  revert ts. induction us as [|[d0 v0] us IH]; intros ts Hnin; [done|].
  rewrite fmap_cons in Hnin. apply not_elem_of_cons in Hnin as [Hne Hnin].
  unfold updateMany. simpl. fold (updateMany us (updateTermSpread7dma d0 v0 ts)).
  rewrite IH by done. unfold updateTermSpread7dma. by rewrite lookup_alter_ne.
Qed.

Lemma updateMany_lookup (us : list (Z * Q)) (ts : gmap Z TermSpreadRow) i d v :
  NoDup us.*1 → us !! i = Some (d, v) →
  updateMany us ts !! d = set_7dma v <$> ts !! d.
Proof.
  revert ts i. induction us as [|[d0 v0] us IH]; intros ts i Hnd Hi; [done|].
  rewrite fmap_cons in Hnd. apply NoDup_cons in Hnd as [Hd0 Hnd].
  unfold updateMany. simpl. fold (updateMany us (updateTermSpread7dma d0 v0 ts)).
  destruct i as [|i]; simpl in Hi.
  - injection Hi as -> ->. rewrite updateMany_lookup_notin by done.
    unfold updateTermSpread7dma. by rewrite lookup_alter_eq.
  - rewrite (IH _ i) by done. unfold updateTermSpread7dma.
    rewrite lookup_alter_ne; [done|].
    intros ->. apply Hd0. apply list_elem_of_lookup_2 in Hi.
    by apply (list_elem_of_fmap_2 fst) in Hi.
Qed.

Lemma smoothingUpdates_dates (rows : list (Z * Q)) :
  (smoothingUpdates rows).*1 = rows.*1.
Proof.
  apply list_eq. intros j. unfold smoothingUpdates.
  rewrite !list_lookup_fmap, list_lookup_imap. by destruct (rows !! j).
Qed.


Lemma compute7DayMA_lookup (ts : gmap Z TermSpreadRow) i d s :
  selectSpreads ts !! i = Some (d, s) →
  compute7DayMA ts !! d =
  set_7dma (JS.average snd (window (selectSpreads ts) i)) <$> ts !! d.
Proof.
  intros Hi. unfold compute7DayMA.
  destruct (selectSpreads ts) as [|row0 rows'] eqn:Hrows; [done|].
  rewrite <- Hrows in *. apply (updateMany_lookup _ ts i).
  - rewrite smoothingUpdates_dates. apply selectSpreads_NoDup.
  - unfold smoothingUpdates. by rewrite list_lookup_imap, Hi.
Qed.

End Smoothing.



(** On the table of the example the smoothed spread of the eighth day is
    the mean 0.04 of the spreads 0.01, ..., 0.07 of the last seven days. *)
Example smoothed_eighth_day :
  ∃ r v, Ingest.compute7DayMA Examples.spread_table !! 19882 = Some r ∧
         Db.term_spread_7dma r = Some v ∧ (v == 4 # 100)%Q.
Proof. vm_compute. eexists _, _. repeat split. Qed.

(** ** The regime classifier *)

Lemma gt_true (a b : Q) : JS.gt a b = true ↔ (b < a)%Q.
Proof.
  unfold JS.gt. rewrite negb_true_iff, <- not_true_iff_false, Qle_bool_iff.
  split; [apply Qnot_le_lt|apply Qlt_not_le].
Qed.

Lemma gt_false (a b : Q) : JS.gt a b = false ↔ (a <= b)%Q.
Proof. unfold JS.gt. by rewrite negb_false_iff, Qle_bool_iff. Qed.

Section Classifier.
Import Dashboard.

Lemma not_single_fields v st :
  st ≠ T_single_maturity →
  shape (interpretTermSpread v st) = (shape_of v).1.1 ∧
  regime (interpretTermSpread v st) = (regime_of v).1.1.1 ∧
  probPositive90d (interpretTermSpread v st) =
    (inject_Z (JS.Math_round
       (JS.Math_max 5 (JS.Math_min 95 (50 + v * 8)) * 10)) / 10)%Q.
Proof.
  intros Hst. unfold interpretTermSpread.
  destruct (shape_of v) as [[sh co] de], (regime_of v) as [[[rg rc] ol] oc].
  by destruct st.
Qed.

(** The five buckets of the two [if] chains. *)
Lemma buckets v :
  ((2 < v)%Q ∧ (shape_of v).1.1 = "STEEP CONTANGO" ∧
     (regime_of v).1.1.1 = "STRONGLY BULLISH") ∨
  ((1 # 2 < v)%Q ∧ (v <= 2)%Q ∧ (shape_of v).1.1 = "CONTANGO" ∧
     (regime_of v).1.1.1 = "BULLISH") ∨
  ((- (1 # 2) < v)%Q ∧ (v <= 1 # 2)%Q ∧ (shape_of v).1.1 = "FLAT" ∧
     (regime_of v).1.1.1 = "NEUTRAL") ∨
  ((- 5 < v)%Q ∧ (v <= - (1 # 2))%Q ∧ (shape_of v).1.1 = "BACKWARDATION" ∧
     (regime_of v).1.1.1 = "MILDLY BEARISH") ∨
  ((v <= - 5)%Q ∧ (shape_of v).1.1 = "STEEP BACKWARDATION" ∧
     (regime_of v).1.1.1 = "BEARISH").
Proof.
  unfold shape_of, regime_of.
  destruct (JS.gt v 2) eqn:H1.
  { apply gt_true in H1. left. done. }
  apply gt_false in H1. right.
  destruct (JS.gt v (1 # 2)) eqn:H2.
  { apply gt_true in H2. left. done. }
  apply gt_false in H2. right.
  destruct (JS.gt v (- (1 # 2))) eqn:H3.
  { apply gt_true in H3. left. done. }
  apply gt_false in H3. right.
  destruct (JS.gt v (- 5)) eqn:H4.
  { apply gt_true in H4. left. done. }
  apply gt_false in H4. right. done.
Qed.
End Classifier.

Local Ltac bucket_iff :=
  split; [intros ?; first [discriminate | lra | (split; lra)]
         | intros ?; first [reflexivity | exfalso; lra]].

(** C4. For a spread kind other than single-maturity, the classifier
    returns steep-contango and strongly-bullish exactly when v > 2,
    contango and bullish exactly when 0.5 < v <= 2, flat and neutral
    exactly when -0.5 < v <= 0.5, backwardation and mildly-bearish exactly
    when -5 < v <= -0.5, steep-backwardation and bearish exactly when
    v <= -5; v = 2 is contango and bullish. *)
Theorem regime_thresholds (v : Q) (st : Dashboard.SpreadType) :
  st ≠ Dashboard.T_single_maturity →
  let c := Dashboard.interpretTermSpread v st in
  (Dashboard.shape c = "STEEP CONTANGO" ↔ (2 < v)%Q) ∧
  (Dashboard.regime c = "STRONGLY BULLISH" ↔ (2 < v)%Q) ∧
  (Dashboard.shape c = "CONTANGO" ↔ (1 # 2 < v ∧ v <= 2)%Q) ∧
  (Dashboard.regime c = "BULLISH" ↔ (1 # 2 < v ∧ v <= 2)%Q) ∧
  (Dashboard.shape c = "FLAT" ↔ (- (1 # 2) < v ∧ v <= 1 # 2)%Q) ∧
  (Dashboard.regime c = "NEUTRAL" ↔ (- (1 # 2) < v ∧ v <= 1 # 2)%Q) ∧
  (Dashboard.shape c = "BACKWARDATION" ↔ (- 5 < v ∧ v <= - (1 # 2))%Q) ∧
  (Dashboard.regime c = "MILDLY BEARISH" ↔ (- 5 < v ∧ v <= - (1 # 2))%Q) ∧
  (Dashboard.shape c = "STEEP BACKWARDATION" ↔ (v <= - 5)%Q) ∧
  (Dashboard.regime c = "BEARISH" ↔ (v <= - 5)%Q) ∧
  ((v == 2)%Q → Dashboard.shape c = "CONTANGO" ∧ Dashboard.regime c = "BULLISH").
Proof.
  intros Hst c. subst c.
  destruct (not_single_fields v st Hst) as (-> & -> & _).
  destruct (buckets v) as
    [(H1 & -> & ->)|[(H1 & H2 & -> & ->)|[(H1 & H2 & -> & ->)|
    [(H1 & H2 & -> & ->)|(H1 & -> & ->)]]]];
    repeat (split; [bucket_iff|]);
    intros Hv; first [split; reflexivity | exfalso; lra].
Qed.

Lemma regime_thresholds_witness :
  let c := Dashboard.interpretTermSpread 2 Dashboard.T_term_spread in
  (Dashboard.shape c = "STEEP CONTANGO" ↔ (2 < 2)%Q) ∧
  (Dashboard.regime c = "STRONGLY BULLISH" ↔ (2 < 2)%Q) ∧
  (Dashboard.shape c = "CONTANGO" ↔ (1 # 2 < 2 ∧ 2 <= 2)%Q) ∧
  (Dashboard.regime c = "BULLISH" ↔ (1 # 2 < 2 ∧ 2 <= 2)%Q) ∧
  (Dashboard.shape c = "FLAT" ↔ (- (1 # 2) < 2 ∧ 2 <= 1 # 2)%Q) ∧
  (Dashboard.regime c = "NEUTRAL" ↔ (- (1 # 2) < 2 ∧ 2 <= 1 # 2)%Q) ∧
  (Dashboard.shape c = "BACKWARDATION" ↔ (- 5 < 2 ∧ 2 <= - (1 # 2))%Q) ∧
  (Dashboard.regime c = "MILDLY BEARISH" ↔ (- 5 < 2 ∧ 2 <= - (1 # 2))%Q) ∧
  (Dashboard.shape c = "STEEP BACKWARDATION" ↔ (2 <= - 5)%Q) ∧
  (Dashboard.regime c = "BEARISH" ↔ (2 <= - 5)%Q) ∧
  ((2 == 2)%Q → Dashboard.shape c = "CONTANGO" ∧ Dashboard.regime c = "BULLISH").
Proof.
  apply (regime_thresholds 2 Dashboard.T_term_spread). discriminate.
Defined.

Lemma clamp_max_min (x : Q) :
  (JS.Math_max 5 (JS.Math_min 95 x) == Spec.clamp x 5 95)%Q.
Proof.
  unfold JS.Math_max, JS.Math_min, Spec.clamp.
  destruct (Qlt_le_dec x 5) as [H5|H5], (Qlt_le_dec 95 x) as [H95|H95];
    try (exfalso; lra).
  - destruct (Qle_bool 95 x) eqn:Ha; [apply Qle_bool_iff in Ha; lra|].
    destruct (Qle_bool 5 x) eqn:Hb; [apply Qle_bool_iff in Hb; lra|reflexivity].
  - destruct (Qle_bool 95 x) eqn:Ha; [reflexivity|].
    apply not_true_iff_false in Ha. rewrite Qle_bool_iff in Ha. lra.
  - destruct (Qle_bool 95 x) eqn:Ha.
    + apply Qle_bool_iff in Ha. simpl. lra.
    + destruct (Qle_bool 5 x) eqn:Hb; [reflexivity|].
      apply not_true_iff_false in Hb. rewrite Qle_bool_iff in Hb. lra.
Qed.

Lemma Math_round_comp (x y : Q) : (x == y)%Q → JS.Math_round x = JS.Math_round y.
Proof. intros H. unfold JS.Math_round. apply Qfloor_comp. by rewrite H. Qed.

Lemma clamp_bounds (x lo hi : Q) :
  (lo <= hi)%Q → (lo <= Spec.clamp x lo hi ∧ Spec.clamp x lo hi <= hi)%Q.
Proof.
  intros H. unfold Spec.clamp.
  destruct (Qlt_le_dec x lo), (Qlt_le_dec hi x); lra.
Qed.

(** [Math.round(x * 10) / 10] is the multiple of one tenth nearest to [x],
    the upper one at a tie. *)
Lemma round_tenth (x : Q) :
  let k := JS.Math_round (x * 10) in
  (x - (1 # 20) < inject_Z k / 10 ∧ inject_Z k / 10 <= x + (1 # 20))%Q.
Proof.
  intros k. subst k. unfold JS.Math_round.
  pose proof (Qfloor_le (x * 10 + (1 # 2))) as Hle.
  pose proof (Qlt_floor (x * 10 + (1 # 2))) as Hlt.
  rewrite inject_Z_plus in Hlt.
  set (k := inject_Z (Qfloor (x * 10 + (1 # 2)))) in *.
  change (inject_Z 1) with 1%Q in Hlt.
  unfold Qdiv. change (/ 10)%Q with (1 # 10)%Q.
  split; lra.
Qed.

Lemma round_monotone (x y : Q) : (x <= y)%Q → JS.Math_round x ≤ JS.Math_round y.
Proof.
  intros H. unfold JS.Math_round. apply Qfloor_resp_le. lra.
Qed.

(** C5. For a spread kind other than single-maturity the probability is
    clamp(50 + v * 8, 5, 95) rounded to one decimal place: a whole number
    of tenths, the nearest to the clamped value (the upper one at a tie),
    between 5 and 95; for the kind single-maturity the classification is
    the fixed no-signal one, with probability 50, whatever the value. *)
Theorem probability_estimate (v : Q) (st : Dashboard.SpreadType) :
  st ≠ Dashboard.T_single_maturity →
  (let p := Spec.clamp (50 + v * 8) 5 95 in
   let prob := Dashboard.probPositive90d (Dashboard.interpretTermSpread v st) in
   prob = (inject_Z (JS.Math_round (p * 10)) / 10)%Q ∧
   (p - (1 # 20) < prob ∧ prob <= p + (1 # 20))%Q ∧
   (5 <= prob ∧ prob <= 95)%Q) ∧
  (let c := Dashboard.interpretTermSpread v Dashboard.T_single_maturity in
   c = Dashboard.interpretTermSpread 0 Dashboard.T_single_maturity ∧
   Dashboard.shape c = "SINGLE MATURITY" ∧
   Dashboard.regime c = "NO SIGNAL" ∧
   Dashboard.probPositive90d c = 50%Q).
Proof.
  intros Hst. split; [|by repeat split].
  intros p prob. subst prob.
  destruct (not_single_fields v st Hst) as (_ & _ & ->).
  rewrite (Math_round_comp _ (p * 10)) by (subst p; by rewrite clamp_max_min).
  split; [done|]. split; [apply round_tenth|].
  destruct (clamp_bounds (50 + v * 8) 5 95) as [Hlo Hhi]; [lra|]. fold p in Hlo, Hhi.
  assert (H1 : 50 ≤ JS.Math_round (p * 10)).
  { change 50 with (JS.Math_round 50). apply round_monotone. lra. }
  assert (H2 : JS.Math_round (p * 10) ≤ 950).
  { change 950 with (JS.Math_round 950). apply round_monotone. lra. }
  rewrite Zle_Qle in H1, H2.
  change (inject_Z 50) with 50%Q in H1. change (inject_Z 950) with 950%Q in H2.
  unfold Qdiv. change (/ 10)%Q with (1 # 10)%Q.
  split; lra.
Qed.

Lemma probability_estimate_witness :
  (let p := Spec.clamp (50 + 2 * 8) 5 95 in
   let prob := Dashboard.probPositive90d
                 (Dashboard.interpretTermSpread 2 Dashboard.T_term_spread) in
   prob = (inject_Z (JS.Math_round (p * 10)) / 10)%Q ∧
   (p - (1 # 20) < prob ∧ prob <= p + (1 # 20))%Q ∧
   (5 <= prob ∧ prob <= 95)%Q) ∧
  (let c := Dashboard.interpretTermSpread 2 Dashboard.T_single_maturity in
   c = Dashboard.interpretTermSpread 0 Dashboard.T_single_maturity ∧
   Dashboard.shape c = "SINGLE MATURITY" ∧
   Dashboard.regime c = "NO SIGNAL" ∧
   Dashboard.probPositive90d c = 50%Q).
Proof.
  apply (probability_estimate 2 Dashboard.T_term_spread). discriminate.
Defined.

(** The probability the classifier gives for a spread of 2 percentage
    points is 66. *)
Example probability_at_two :
  Dashboard.probPositive90d (Dashboard.interpretTermSpread 2 Dashboard.T_term_spread)
  = (660 # 10)%Q.
Proof. reflexivity. Qed.

(** C7 as stated fails: a spread of +0.3 percentage points (0.003) is
    strictly positive and classifies as flat, not in the contango family,
    both through the classifier and through the dashboard's choice for a
    row with two maturities; a spread of -0.3 percentage points is strictly
    negative and classifies as flat as well. *)
Lemma small_positive_spread_is_flat :
  let r := Dashboard.mkTermSpread 19875 (3 # 1000) None 2 in
  let c := Dashboard.interpretTermSpread (Dashboard.term_spread r * 100)
             Dashboard.T_term_spread in
  let c' := Dashboard.interpretTermSpread (- (3 # 1000) * 100) Dashboard.T_term_spread in
  (0 < Dashboard.term_spread r)%Q ∧ 2 ≤ Dashboard.num_maturities r ∧
  Dashboard.latestCurve (Some r) = Some c ∧
  Dashboard.shape c = "FLAT" ∧ ¬ Spec.contango_family c ∧
  (- (3 # 1000) < 0)%Q ∧
  Dashboard.shape c' = "FLAT" ∧ ¬ Spec.backwardation_family c'.
Proof.
  repeat split; try reflexivity; try lia; intros [H|H]; discriminate H.
Qed.

(** C7, amended. For a spread kind other than single-maturity, a spread
    above +0.5 percentage points classifies into the contango family and a
    spread at or below -0.5 percentage points into the backwardation
    family; a spread in (-0.5, 0.5] classifies as flat; so a strictly
    positive spread never classifies into the backwardation family and a
    strictly negative one never into the contango family. *)
Theorem spread_sign_families (spread : Q) (st : Dashboard.SpreadType) :
  st ≠ Dashboard.T_single_maturity →
  let c := Dashboard.interpretTermSpread (spread * 100) st in
  ((1 # 2 < spread * 100)%Q → Spec.contango_family c) ∧
  ((spread * 100 <= - (1 # 2))%Q → Spec.backwardation_family c) ∧
  ((- (1 # 2) < spread * 100 ∧ spread * 100 <= 1 # 2)%Q →
     Dashboard.shape c = "FLAT" ∧ Dashboard.regime c = "NEUTRAL") ∧
  ((0 < spread)%Q → ¬ Spec.backwardation_family c) ∧
  ((spread < 0)%Q → ¬ Spec.contango_family c).
Proof.
  intros Hst c. subst c. unfold Spec.contango_family, Spec.backwardation_family.
  destruct (not_single_fields (spread * 100) st Hst) as (-> & -> & _).
  destruct (buckets (spread * 100)) as
    [(H1 & -> & ->)|[(H1 & H2 & -> & ->)|[(H1 & H2 & -> & ->)|
    [(H1 & H2 & -> & ->)|(H1 & -> & ->)]]]];
    (split; [|split; [|split; [|split]]]); intros Hv;
    first [ by left | by right | done | exfalso; lra
          | intros [H|H]; first [discriminate H | lra] ].
Qed.

Lemma spread_sign_families_witness :
  let c := Dashboard.interpretTermSpread ((2 # 100) * 100) Dashboard.T_term_spread in
  ((1 # 2 < (2 # 100) * 100)%Q → Spec.contango_family c) ∧
  (((2 # 100) * 100 <= - (1 # 2))%Q → Spec.backwardation_family c) ∧
  ((- (1 # 2) < (2 # 100) * 100 ∧ (2 # 100) * 100 <= 1 # 2)%Q →
     Dashboard.shape c = "FLAT" ∧ Dashboard.regime c = "NEUTRAL") ∧
  ((0 < 2 # 100)%Q → ¬ Spec.backwardation_family c) ∧
  (((2 # 100) < 0)%Q → ¬ Spec.contango_family c).
Proof.
  apply (spread_sign_families (2 # 100) Dashboard.T_term_spread). discriminate.
Defined.

(** ** The nearest-date price lookup *)

Section Lookup.
Import Dashboard.
Variable tz : JS.TimeZone.

(** The keys the two loops probe, in order, whatever the time zone. *)
Lemma probe_keys (m : gmap Z Q) d :
  probe_offsets tz m d [1; 2; 3] =
  Spec.first_priced m (map (JS.shiftDate tz d) [1; -1; 2; -2; 3; -3]).
Proof.
  cbn [probe_offsets probe_dirs map Spec.first_priced].
  change (1 * 1) with 1. change (1 * -1) with (-1).
  change (2 * 1) with 2. change (2 * -1) with (-2).
  change (3 * 1) with 3. change (3 * -1) with (-3).
  repeat case_match; done.
Qed.

Lemma first_priced_None (m : gmap Z Q) keys :
  Spec.first_priced m keys = None ↔ ∀ k, k ∈ keys → m !! k = None.
Proof.
  induction keys as [|k keys IH]; simpl.
  - split; [|done]. intros _ k Hk. by apply elem_of_nil in Hk.
  - destruct (m !! k) eqn:Hk.
    + split; [done|]. intros H. specialize (H k). rewrite Hk in H.
      apply H. by left.
    + rewrite IH. split.
      * intros H k' [->|Hk']%elem_of_cons; [done|by apply H].
      * intros H k' Hk'. apply H. by right.
Qed.

Lemma elem_of_probe_order d k :
  d + k ∈ Spec.probe_order d ↔ -3 ≤ k ≤ 3 ∧ k ≠ 0.
Proof.
  unfold Spec.probe_order. rewrite !elem_of_cons, elem_of_nil. lia.
Qed.

Lemma forwardReturn_no_future (find : Z → option Q) row :
  find (JS.shiftDate tz (date (base row)) 90) = None →
  forwardReturn tz find row = None.
Proof.
  intros H. unfold forwardReturn. rewrite H. by repeat case_match.
Qed.

(** Where the offset never changes, moving a date by [n] days adds [n] to
    its day number. *)
Lemma shiftDate_fixed_offset d n :
  Spec.fixed_offset tz → JS.shiftDate tz d n = d + n.
Proof.
  intros [c Hc].
  unfold JS.shiftDate, JS.isoDate, JS.setDate_plus, JS.UTC, JS.LocalTime, JS.Date_of.
  destruct (Hc (d * JS.msPerDay)) as [-> _].
  destruct (Hc (d * JS.msPerDay + c + n * JS.msPerDay)) as [_ ->].
  replace (d * JS.msPerDay + c + n * JS.msPerDay - c)
    with ((d + n) * JS.msPerDay) by lia.
  apply Z.div_mul. discriminate.
Qed.

Lemma probe_first_priced (m : gmap Z Q) d :
  Spec.fixed_offset tz →
  probe_offsets tz m d [1; 2; 3] = Spec.first_priced m (Spec.probe_order d).
Proof.
  intros Hfix. rewrite probe_keys. cbn [map].
  rewrite !shiftDate_fixed_offset by done. reflexivity.
Qed.
End Lookup.

(** In a runtime whose local time zone never changes its offset (UTC, for
    one), the lookup is the one the specification describes: for a target
    date without an exact price it returns the price of the first key
    that has one in the order +1, -1, +2, -2, +3, -3 days; it succeeds as
    soon as a price exists within three days; and when no price exists
    within three days it returns null and no forward return is computed
    for a row whose date 90 days later is the target. The helper of the
    scatter chart is the same function. *)
Lemma nearest_price_lookup_fixed_offset (tz : JS.TimeZone)
    (btcPriceMap : gmap Z Q) (d : Z) :
  Spec.fixed_offset tz →
  btcPriceMap !! d = None →
  Dashboard.findBtcPrice tz btcPriceMap d =
    Spec.first_priced btcPriceMap (Spec.probe_order d) ∧
  Dashboard.findPrice tz btcPriceMap d = Dashboard.findBtcPrice tz btcPriceMap d ∧
  ((∃ k, -3 ≤ k ≤ 3 ∧ is_Some (btcPriceMap !! (d + k))) →
     is_Some (Dashboard.findBtcPrice tz btcPriceMap d)) ∧
  ((∀ k, -3 ≤ k ≤ 3 → btcPriceMap !! (d + k) = None) →
     Dashboard.findBtcPrice tz btcPriceMap d = None ∧
     ∀ row, Dashboard.date (Dashboard.base row) + 90 = d →
       Dashboard.forwardReturn tz (Dashboard.findBtcPrice tz btcPriceMap) row = None ∧
       Dashboard.forwardReturn tz (Dashboard.findPrice tz btcPriceMap) row = None).
Proof.
  intros Hfix Hd.
  assert (Hfind : Dashboard.findBtcPrice tz btcPriceMap d =
                  Spec.first_priced btcPriceMap (Spec.probe_order d)).
  { unfold Dashboard.findBtcPrice. rewrite Hd. by apply probe_first_priced. }
  split; [done|]. split; [reflexivity|]. split.
  - intros (k & Hk & Hsome). rewrite Hfind.
    destruct (Spec.first_priced btcPriceMap (Spec.probe_order d)) eqn:Hfp; [done|].
    rewrite first_priced_None in Hfp.
    assert (Hk0 : k ≠ 0).
    { intros ->. rewrite Z.add_0_r, Hd in Hsome. by destruct Hsome. }
    rewrite (Hfp (d + k)) in Hsome; [by destruct Hsome|].
    by apply elem_of_probe_order.
  - intros Hnone.
    assert (Hn : Dashboard.findBtcPrice tz btcPriceMap d = None).
    { rewrite Hfind. apply first_priced_None. intros k' Hk'.
      replace k' with (d + (k' - d)) in * by lia.
      apply elem_of_probe_order in Hk'. apply Hnone. lia. }
    split; [done|]. intros row <-.
    split; apply forwardReturn_no_future;
      (rewrite shiftDate_fixed_offset by done); exact Hn.
Qed.

(** The scenario of the specification: with prices on 2024-08-30 and
    2024-09-02 only, the lookup for 2024-09-01 resolves to the price of
    2024-09-02, one day ahead, which is probed before two days back. *)
Example gap_lookup :
  Dashboard.findBtcPrice JS.Etc_UTC Examples.gap_prices 19967 = Some 58000%Q ∧
  Dashboard.findBtcPrice Examples.Europe_Berlin_2024 Examples.gap_prices 19967
  = Some 58000%Q.
Proof. split; vm_compute; reflexivity. Qed.

(** C8. The claim fails on the code in a runtime whose local time zone
    changes its offset near the target date. The lookup parses the date
    as midnight UTC, moves it with [setDate] and [getDate], which work in
    local time, and reads the key back in UTC. In Europe/Berlin, around
    2024-03-30 (day 19812, the eve of the change to summer time), the six
    keys probed are +1, -1, +1 again, -2, +2 and -3 days: the day two
    days ahead is probed as offset 3 and the day three days ahead is never
    probed. With a price on 2024-04-02 only, three days ahead, the lookup
    of both helpers returns null although a price exists within three
    days; under UTC the same lookup resolves to that price. Likewise the
    forward-return target of 2024-01-15 (day 19737) is 89 days later, not
    90. *)
Theorem nearest_price_lookup_skips_day_across_dst :
  let tz := Examples.Europe_Berlin_2024 in
  let prices := Examples.price_three_days_ahead in
  let d := 19812 in
  prices !! d = None ∧
  (-3 ≤ 3 ≤ 3 ∧ prices !! (d + 3) = Some 70000%Q) ∧
  map (JS.shiftDate tz d) [1; -1; 2; -2; 3; -3]
    = [d + 1; d - 1; d + 1; d - 2; d + 2; d - 3] ∧
  Dashboard.findBtcPrice tz prices d = None ∧
  Dashboard.findPrice tz prices d = None ∧
  Dashboard.findBtcPrice JS.Etc_UTC prices d = Some 70000%Q ∧
  JS.shiftDate tz 19737 90 = 19737 + 89.
Proof.
  cbv zeta. split; [vm_compute; reflexivity|].
  split; [split; [lia|vm_compute; reflexivity]|].
  repeat split; vm_compute; reflexivity.
Qed.

(** ** Decile binning *)

Section Deciles.
Import Dashboard.

Lemma sortedBySpread_perm l : sortedBySpread l ≡ₚ l.
Proof. apply sort_perm. Qed.

Lemma sortedBySpread_length l : length (sortedBySpread l) = length l.
Proof. apply sort_length. Qed.

Lemma sortedBySpread_sorted l :
  StronglySorted
    (fun a b => (term_spread (base a) <= term_spread (base b))%Q)
    (sortedBySpread l).
Proof.
  unfold sortedBySpread.
  match goal with |- StronglySorted _ (JS.sort ?leb _) =>
    assert (Hs : StronglySorted (fun a b => leb a b = true) (JS.sort leb l))
  end.
  { apply sort_sorted.
    - intros x y. rewrite !Qle_bool_iff.
      destruct (Qlt_le_dec (term_spread (base x)) (term_spread (base y)));
        [left; lra|by right].
    - intros x y z. rewrite !Qle_bool_iff. intros; lra. }
  induction Hs as [|x s Hs IH Hx]; constructor; [done|].
  eapply Forall_impl; [exact Hx|]. intros y Hy; simpl in Hy.
  by apply Qle_bool_iff.
Qed.

Variable sorted : list TermSpreadWithBtc.
Hypothesis enough : (20 ≤ length sorted)%nat.


Lemma decileSize_bounds :
  (2 ≤ JS.floor_div (length sorted) 10 ∧
   10 * JS.floor_div (length sorted) 10 ≤ length sorted)%nat.
Proof.
  unfold JS.floor_div. split.
  - apply (Nat.div_le_lower_bound _ 10 2); lia.
  - apply Nat.Div0.mul_div_le.
Qed.

Lemma decileSlice_length d :
  (d < 10)%nat →
  length (decileSlice sorted d) =
  if (d =? 9)%nat
  then (length sorted - 9 * JS.floor_div (length sorted) 10)%nat
  else JS.floor_div (length sorted) 10.
Proof.
  intros Hd. pose proof decileSize_bounds as [Hq Hn].
  unfold decileSlice, JS.slice.
  rewrite length_take, length_drop.
  remember (JS.floor_div (length sorted) 10) as q.
  destruct (d =? 9)%nat eqn:Hd9.
  - apply Nat.eqb_eq in Hd9. subst d. lia.
  - apply Nat.eqb_neq in Hd9. nia.
Qed.

Lemma decileSlice_nonempty d : (d < 10)%nat → (0 < length (decileSlice sorted d))%nat.
Proof.
  intros Hd. rewrite decileSlice_length by done.
  pose proof decileSize_bounds. destruct (d =? 9)%nat; lia.
Qed.

Lemma decileRow_Some tz m d :
  (d < 10)%nat →
  ∃ row, decileRow tz m sorted d = Some row ∧
         count row = length (decileSlice sorted d) ∧
         decile row = Z.of_nat d + 1.
Proof.
  intros Hd. pose proof (decileSlice_nonempty d Hd) as Hne.
  unfold decileRow.
  destruct (lookup_lt_is_Some_2 (decileSlice sorted d) 0%nat) as [first ->]; [lia|].
  destruct (lookup_lt_is_Some_2 (decileSlice sorted d)
              (length (decileSlice sorted d) - 1)%nat) as [last ->]; [lia|].
  simpl. by eexists.
Qed.

Lemma decileSlices_prefix k :
  (k ≤ 9)%nat →
  concat (map (decileSlice sorted) (seq 0 k)) =
  take (k * JS.floor_div (length sorted) 10) sorted.
Proof.
  remember (JS.floor_div (length sorted) 10) as q eqn:Hq.
  induction k as [|k IH]; intros Hk; [by rewrite take_0|].
  rewrite seq_S, map_app, concat_app, IH by lia. cbn [map concat Nat.add].
  rewrite app_nil_r. unfold decileSlice, JS.slice. rewrite <- Hq.
  replace (k =? 9)%nat with false by (symmetry; apply Nat.eqb_neq; lia).
  replace ((k + 1) * q - k * q)%nat with q by lia.
  rewrite take_take_drop. f_equal. lia.
Qed.

(** The ten slices are consecutive and cover the sorted array. *)
Lemma decileSlices_concat :
  concat (map (decileSlice sorted) (seq 0 10)) = sorted.
Proof.
  change (seq 0 10) with (seq 0 9 ++ [9%nat]).
  rewrite map_app, concat_app, decileSlices_prefix by lia. cbn [map concat].
  rewrite app_nil_r. unfold decileSlice, JS.slice. simpl (9 =? 9)%nat. cbv iota.
  rewrite take_take_drop. apply take_ge.
  pose proof decileSize_bounds. lia.
Qed.

Lemma deciles_rows tz m :
  ∃ rows, mapM (decileRow tz m sorted) (seq 0 10) = Some rows ∧
    length rows = 10%nat ∧
    ∀ d row, rows !! d = Some row →
      count row = length (decileSlice sorted d) ∧ decile row = Z.of_nat d + 1.
Proof.
  destruct (mapM_is_Some_2 (decileRow tz m sorted) (seq 0 10)) as [rows Hrows].
  { apply Forall_forall. intros d Hd. apply elem_of_seq in Hd.
    destruct (decileRow_Some tz m d) as (row & Hrow & _); [lia|]. by exists row. }
  exists rows. split; [done|].
  apply mapM_Some_1 in Hrows.
  pose proof (Forall2_length _ _ _ Hrows) as Hlen. rewrite length_seq in Hlen.
  split; [done|]. intros d row Hrow.
  assert (Hd : (d < 10)%nat) by (rewrite Hlen; by eapply lookup_lt_Some).
  destruct (Forall2_lookup_r _ _ _ _ _ Hrows Hrow) as (d' & Hd' & Hrowd).
  apply lookup_seq in Hd' as [-> _]. simpl in Hrowd.
  destruct (decileRow_Some tz m d Hd) as (row' & Hrow' & Hc & Hdec).
  rewrite Hrowd in Hrow'. by injection Hrow' as <-.
Qed.
End Deciles.

(** C6 as stated fails: on the twenty-five observations of the example the
    ten bins have 2, 2, 2, 2, 2, 2, 2, 2, 2 and 7 members, so the last bin
    has neither 2 nor 3. *)
Lemma last_decile_of_25_has_7 :
  length Examples.observations25 = 25%nat ∧
  ∃ rows,
    Dashboard.computeDeciles Examples.Europe_Berlin_2024 Examples.observations25 ∅ = Some rows ∧
    length rows = 10%nat ∧
    map Dashboard.count rows = [2; 2; 2; 2; 2; 2; 2; 2; 2; 7]%nat ∧
    ¬ Forall (fun n => n = 2 ∨ n = 3)%nat (map Dashboard.count rows).
Proof.
  split; [reflexivity|]. vm_compute. eexists. repeat split.
  intros H. rewrite !Forall_cons in H.
  destruct H as (_ & _ & _ & _ & _ & _ & _ & _ & _ & [H|H] & _); discriminate H.
Qed.

(** C6, amended. Fewer than 20 observations give the empty list. Exactly
    25 observations give exactly 10 bins over the observations sorted in
    ascending order of spread: the bins are consecutive slices of the
    sorted array, the first nine have 2 members each and the last one,
    which absorbs the remainder, has 7. *)
Theorem decile_binning (tz : JS.TimeZone)
    (spreadsWithBtc : list Dashboard.TermSpreadWithBtc)
    (btcPriceMap : gmap Z Q) :
  ((length spreadsWithBtc < 20)%nat →
     Dashboard.computeDeciles tz spreadsWithBtc btcPriceMap = Some []) ∧
  (length spreadsWithBtc = 25%nat →
     let sorted := Dashboard.sortedBySpread spreadsWithBtc in
     sorted ≡ₚ spreadsWithBtc ∧
     StronglySorted
       (fun a b => (Dashboard.term_spread (Dashboard.base a)
                    <= Dashboard.term_spread (Dashboard.base b))%Q) sorted ∧
     concat (map (Dashboard.decileSlice sorted) (seq 0 10)) = sorted ∧
     ∃ rows,
       Dashboard.computeDeciles tz spreadsWithBtc btcPriceMap = Some rows ∧
       length rows = 10%nat ∧
       map Dashboard.count rows = [2; 2; 2; 2; 2; 2; 2; 2; 2; 7]%nat ∧
       ∀ d row, rows !! d = Some row →
         Dashboard.decile row = Z.of_nat d + 1 ∧
         Dashboard.count row = length (Dashboard.decileSlice sorted d)).
Proof.
  split.
  - intros Hlt. unfold Dashboard.computeDeciles.
    by replace (length spreadsWithBtc <? 20)%nat with true
      by (symmetry; apply Nat.ltb_lt; lia).
  - intros Hlen sorted.
    assert (Hn : length sorted = 25%nat)
      by (subst sorted; by rewrite sortedBySpread_length).
    assert (Hge : (20 ≤ length sorted)%nat) by lia.
    split; [apply sortedBySpread_perm|]. split; [apply sortedBySpread_sorted|].
    split; [by apply decileSlices_concat|].
    destruct (deciles_rows sorted Hge tz btcPriceMap) as (rows & Hrows & Hlen10 & Hrow).
    exists rows. unfold Dashboard.computeDeciles. rewrite Hlen. simpl.
    fold sorted. split; [done|]. split; [done|].
    split; [|intros d row Hd; split; by apply Hrow].
    assert (Hcount : ∀ d row, rows !! d = Some row →
              Dashboard.count row = if (d =? 9)%nat then 7%nat else 2%nat).
    { intros d row Hd. destruct (Hrow d row Hd) as [-> _].
      rewrite decileSlice_length, Hn; [done..|].
      rewrite <- Hlen10. by eapply lookup_lt_Some. }
    do 10 (destruct rows as [|? rows]; [discriminate Hlen10|]).
    destruct rows; [|discriminate Hlen10]. simpl.
    rewrite (Hcount 0%nat _ eq_refl), (Hcount 1%nat _ eq_refl),
      (Hcount 2%nat _ eq_refl), (Hcount 3%nat _ eq_refl),
      (Hcount 4%nat _ eq_refl), (Hcount 5%nat _ eq_refl),
      (Hcount 6%nat _ eq_refl), (Hcount 7%nat _ eq_refl),
      (Hcount 8%nat _ eq_refl), (Hcount 9%nat _ eq_refl).
    reflexivity.
Qed.

Lemma decile_binning_witness :
  Dashboard.computeDeciles Examples.Europe_Berlin_2024 [] ∅ = Some [] ∧
  (let sorted := Dashboard.sortedBySpread Examples.observations25 in
   sorted ≡ₚ Examples.observations25 ∧
   StronglySorted
     (fun a b => (Dashboard.term_spread (Dashboard.base a)
                  <= Dashboard.term_spread (Dashboard.base b))%Q) sorted ∧
   concat (map (Dashboard.decileSlice sorted) (seq 0 10)) = sorted ∧
   ∃ rows,
     Dashboard.computeDeciles Examples.Europe_Berlin_2024 Examples.observations25 ∅ = Some rows ∧
     length rows = 10%nat ∧
     map Dashboard.count rows = [2; 2; 2; 2; 2; 2; 2; 2; 2; 7]%nat ∧
     ∀ d row, rows !! d = Some row →
       Dashboard.decile row = Z.of_nat d + 1 ∧
       Dashboard.count row = length (Dashboard.decileSlice sorted d)).
Proof.
  split.
  - apply (decile_binning Examples.Europe_Berlin_2024 [] ∅). simpl. lia.
  - apply (decile_binning Examples.Europe_Berlin_2024 Examples.observations25 ∅). reflexivity.
Defined.

(** ** Realized volatility *)

Section Volatility.
Import Dashboard.

Lemma Rsum_acc (l : list R) (a : R) :
  fold_left Rplus l a = (a + Spec.Rsum_list l)%R.
Proof.
  revert a. induction l as [|x l IH]; intros a; simpl.
  - unfold Spec.Rsum_list. simpl. Lra.lra.
  - rewrite IH. unfold Spec.Rsum_list. simpl. Lra.lra.
Qed.

Lemma Rsum_map_acc (g : R → R) (l : list R) (a : R) :
  fold_left (fun s b => s + g b)%R l a = (a + Spec.Rsum_list (map g l))%R.
Proof.
  revert a. induction l as [|x l IH]; intros a; simpl.
  - unfold Spec.Rsum_list. simpl. Lra.lra.
  - rewrite IH. unfold Spec.Rsum_list. simpl. Lra.lra.
Qed.

Lemma Rsum_squares_nonneg (m : R) (l : list R) :
  (0 <= Spec.Rsum_list (map (fun x => (x - m) ^ 2) l))%R.
Proof.
  induction l as [|x l IH]; unfold Spec.Rsum_list in *; cbn [map fold_right];
    [Lra.lra|].
  pose proof (pow2_ge_0 (x - m)) as Hx. Lra.lra.
Qed.

Lemma truthy_positive (x : Q) : (0 < x)%Q → truthy x = true.
Proof.
  intros Hx. unfold truthy. apply negb_true_iff, not_true_iff_false.
  rewrite Qeq_bool_iff. lra.
Qed.

Lemma omap_all_Some {A B} (f : A → option B) (g : A → B) (l : list A) :
  (∀ x, x ∈ l → f x = Some (g x)) → omap f l = map g l.
Proof.
  induction l as [|x l IH]; intros H; simpl; [done|].
  rewrite (H x) by (by left). simpl. f_equal. apply IH.
  intros y Hy. apply H. by right.
Qed.

Variable rows : list (TermSpreadWithBtc * Q).
Hypothesis positive : Forall (fun r => (0 < r.2)%Q) rows.

Lemma logReturn_defined j :
  (1 ≤ j < length rows)%nat →
  logReturn rows j =
  Some (ln (Q2R (nth j rows.*2 0%Q) / Q2R (nth (j - 1) rows.*2 0%Q)))%R.
Proof.
  intros Hj. unfold logReturn.
  destruct (lookup_lt_is_Some_2 rows j) as [cur Hcur]; [lia|].
  destruct (lookup_lt_is_Some_2 rows (j - 1)%nat) as [prev Hprev]; [lia|].
  rewrite Hcur. simpl.
  destruct j as [|j']; [lia|].
  replace (S j' - 1)%nat with j' in * by lia.
  rewrite Hprev. simpl.
  rewrite Forall_forall in positive.
  rewrite !truthy_positive
    by (apply positive; by eapply list_elem_of_lookup_2). simpl.
  assert (Hn : ∀ k r, rows !! k = Some r → nth k rows.*2 0%Q = r.2).
  { intros k r Hk. apply nth_lookup_Some with (d := 0%Q).
    by rewrite list_lookup_fmap, Hk. }
  by rewrite (Hn _ _ Hcur), (Hn _ _ Hprev).
Qed.

Lemma vol30d_early i : (i < 30)%nat → vol30d rows i = None.
Proof.
  intros Hi. unfold vol30d.
  by replace (30 <=? i)%nat with false by (symmetry; apply Nat.leb_gt; lia).
Qed.

Lemma vol30d_window i :
  (30 ≤ i < length rows)%nat →
  vol30d rows i =
  Some (Spec.stddev (Spec.log_returns rows.*2 (i - 29) 30) * sqrt 365 * 100)%R.
Proof.
  intros Hi. unfold vol30d.
  replace (30 <=? i)%nat with true by (symmetry; apply Nat.leb_le; lia).
  rewrite (omap_all_Some _
    (fun j => ln (Q2R (nth j rows.*2 0%Q) / Q2R (nth (j - 1) rows.*2 0%Q)))%R).
  2: { intros j Hj. apply elem_of_seq in Hj. apply logReturn_defined. lia. }
  fold (Spec.log_returns rows.*2 (i - 29) 30).
  set (returns := Spec.log_returns rows.*2 (i - 29) 30).
  assert (Hlen : length returns = 30%nat).
  { subst returns. unfold Spec.log_returns. by rewrite length_map, length_seq. }
  rewrite Hlen. simpl (5 <? 30)%nat. cbv iota.
  f_equal. unfold Rsum. rewrite Rsum_acc, Rsum_map_acc, !Rplus_0_l.
  unfold Spec.stddev, Spec.Rmean. rewrite length_map, Hlen.
  rewrite sqrt_mult_alt; [reflexivity|].
  apply Rmult_le_pos; [apply Rsum_squares_nonneg|].
  left. apply Rinv_0_lt_compat. apply lt_0_INR. lia.
Qed.
End Volatility.

(** * Further properties *)

(** ** The spread engine as a whole *)

Section SpreadEngineBatch.
Import Db Ingest.
Variable daily_snapshots : list Snapshot.

(** The parameters the loop body binds for a date do not depend on the
    table, and it writes exactly when the date has a live snapshot. *)
Lemma processDate_uniform d :
  ∃ op : option TermSpreadParams,
    (op = None ↔ selectSnapshots daily_snapshots d = []) ∧
    (∀ p, op = Some p → p_date p = d) ∧
    ∀ ts, processDate daily_snapshots ts d =
          Some (match op with Some p => upsertTermSpread p ts | None => ts end).
Proof.
  destruct (selectSnapshots daily_snapshots d) as [|snap rest] eqn:Hsn.
  { exists None. repeat split; try done.
    intros ts. unfold processDate. by rewrite Hsn. }
  destruct (decide (2 ≤ length (JS.sort Z.leb
              (JS.Set_of (map expiry (selectSnapshots daily_snapshots d)))))%nat)
    as [Hge|Hlt].
  - destruct (processDate_multi daily_snapshots ∅ d Hge)
      as (lo & hi & f0 & b0 & Hlo & Hhi & Hf & Hb & Hp).
    eexists (Some _). split; [split; done|].
    apply and_comm. split.
    + intros ts.
      destruct (processDate_multi daily_snapshots ts d Hge)
        as (lo' & hi' & f0' & b0' & Hlo' & Hhi' & Hf' & Hb' & Hp').
      rewrite Hlo in Hlo'. injection Hlo' as <-.
      rewrite Hhi in Hhi'. injection Hhi' as <-.
      rewrite Hf in Hf'. injection Hf' as <-.
      rewrite Hb in Hb'. injection Hb' as <-.
      exact Hp'.
    + intros p [= <-]. reflexivity.
  - rewrite Hsn in Hlt. apply Nat.nle_gt, Nat.leb_gt in Hlt.
    eexists (Some _). split; [split; done|].
    apply and_comm. split.
    + intros ts. unfold processDate. rewrite Hsn, Hlt. reflexivity.
    + intros p [= <-]. reflexivity.
Qed.

Lemma computeMany_uniform dates :
  NoDup dates →
  ∃ F : Z → option TermSpreadParams,
    (∀ d, F d = None ↔ d ∉ dates ∨ selectSnapshots daily_snapshots d = []) ∧
    (∀ d p, F d = Some p → p_date p = d) ∧
    ∀ ts, ∃ ts',
      computeMany daily_snapshots dates ts = Some ts' ∧
      ∀ d, ts' !! d =
           match F d with
           | Some p => upsertTermSpread p ts !! d
           | None => ts !! d
           end.
Proof.
  induction dates as [|d0 dates IH]; intros Hnd.
  { exists (fun _ => None). split; [|split; [done|]].
    - intros d. split; [|done]. intros _. left. apply not_elem_of_nil.
    - intros ts. exists ts. by split. }
  apply NoDup_cons in Hnd as [Hd0 Hnd].
  destruct (IH Hnd) as (F & HFnone & HFdate & HF).
  destruct (processDate_uniform d0) as (op & Hop & Hopdate & Hproc).
  exists (fun d => if decide (d = d0) then op else F d).
  split; [|split].
  - intros d. destruct (decide (d = d0)) as [->|Hne].
    + rewrite Hop. split; [by right|]. intros [Hnin|H]; [|done].
      exfalso. apply Hnin. by left.
    + rewrite HFnone, not_elem_of_cons. tauto.
  - intros d p. destruct (decide (d = d0)) as [->|Hne]; [apply Hopdate|apply HFdate].
  - intros ts. simpl. rewrite Hproc. simpl.
    destruct (HF (match op with Some p => upsertTermSpread p ts | None => ts end))
      as (ts' & Hc & Hlk).
    exists ts'. split; [exact Hc|]. intros d. rewrite Hlk.
    destruct (decide (d = d0)) as [->|Hne].
    + assert (HF0 : F d0 = None) by (apply HFnone; by left).
      rewrite HF0. by destruct op.
    + assert (Hstep : (match op with Some p => upsertTermSpread p ts | None => ts end)
                        !! d = ts !! d).
      { destruct op as [p|]; [|done]. apply upsert_lookup_ne.
        rewrite (Hopdate p eq_refl). done. }
      destruct (F d) as [p|] eqn:HFd; [|exact Hstep].
      pose proof (HFdate d p HFd) as Hpd. subst d.
      by rewrite !upsert_lookup_eq, Hstep.
Qed.

(** The whole batch: it terminates normally, and the row of every date is
    the upsert of that date's parameters, if the date has a live
    snapshot, and the row it was otherwise. *)
Lemma computeTermSpreads_rows :
  ∃ F : Z → option TermSpreadParams,
    (∀ d, F d = None ↔ selectSnapshots daily_snapshots d = []) ∧
    (∀ d p, F d = Some p → p_date p = d) ∧
    ∀ ts, ∃ ts',
      computeTermSpreads daily_snapshots ts = Some ts' ∧
      ∀ d, ts' !! d =
           match F d with
           | Some p => Some (match ts !! d with
                             | Some r => conflict_update p r
                             | None => inserted_row p
                             end)
           | None => ts !! d
           end.
Proof.
  destruct (computeMany_uniform (selectDates daily_snapshots)
              (selectDates_NoDup daily_snapshots)) as (F & HFnone & HFdate & HF).
  exists F. split; [|split; [exact HFdate|]].
  - intros d. rewrite HFnone. split; [|by right].
    intros [Hnin|H]; [|done].
    destruct (selectSnapshots daily_snapshots d) as [|s l] eqn:Hl; [done|].
    exfalso. apply Hnin, elem_of_selectDates.
    assert (Hs : s ∈ selectSnapshots daily_snapshots d) by (rewrite Hl; by left).
    apply elem_of_selectSnapshots in Hs as (Hs & <- & _).
    by apply list_elem_of_fmap_2.
  - intros ts. destruct (HF ts) as (ts' & Hc & Hlk).
    exists ts'. split; [exact Hc|]. intros d. rewrite Hlk.
    destruct (F d) as [p|] eqn:HFd; [|done].
    rewrite <- (HFdate d p HFd). apply upsert_lookup_eq.
Qed.

End SpreadEngineBatch.

Lemma conflict_update_twice p r :
  Db.conflict_update p (Db.conflict_update p r) = Db.conflict_update p r.
Proof. reflexivity. Qed.

Lemma conflict_update_inserted p :
  Db.conflict_update p (Db.inserted_row p) = Db.inserted_row p.
Proof. reflexivity. Qed.

(** X1. The spread engine only adds or updates rows: the batch terminates
    normally; a date without a live snapshot (days to expiry > 0) keeps
    its row exactly as it was, also a row computed earlier; and a date has
    a row afterwards exactly when it had one before or has a live
    snapshot. *)
Theorem spread_engine_never_deletes (daily_snapshots : list Db.Snapshot)
    (ts : gmap Z Db.TermSpreadRow) :
  ∃ ts',
    Ingest.computeTermSpreads daily_snapshots ts = Some ts' ∧
    ∀ d,
      (Ingest.selectSnapshots daily_snapshots d = [] → ts' !! d = ts !! d) ∧
      (is_Some (ts' !! d) ↔
       is_Some (ts !! d) ∨ Ingest.selectSnapshots daily_snapshots d ≠ []).
Proof.
  destruct (computeTermSpreads_rows daily_snapshots) as (F & HFnone & _ & HF).
  destruct (HF ts) as (ts' & Hc & Hlk). exists ts'. split; [exact Hc|].
  intros d. rewrite Hlk. split.
  - intros Hl. apply HFnone in Hl. by rewrite Hl.
  - destruct (F d) as [p|] eqn:HFd.
    + split; [|by eexists]. intros _. right. rewrite <- HFnone, HFd. done.
    + apply HFnone in HFd. split; [by left|]. intros [H|H]; done.
Qed.

(** X2. The spread engine is idempotent: a second run on the same
    snapshots leaves the table produced by the first run unchanged. *)
Theorem spread_engine_idempotent (daily_snapshots : list Db.Snapshot)
    (ts : gmap Z Db.TermSpreadRow) :
  ∃ ts',
    Ingest.computeTermSpreads daily_snapshots ts = Some ts' ∧
    Ingest.computeTermSpreads daily_snapshots ts' = Some ts'.
Proof.
  destruct (computeTermSpreads_rows daily_snapshots) as (F & _ & _ & HF).
  destruct (HF ts) as (ts1 & Hc1 & Hlk1).
  destruct (HF ts1) as (ts2 & Hc2 & Hlk2).
  exists ts1. split; [exact Hc1|]. rewrite Hc2. f_equal.
  apply map_eq. intros d. rewrite Hlk2, Hlk1.
  destruct (F d) as [p|]; [|done]. by destruct (ts !! d).
Qed.

(** X3. Through a whole batch, the smoothed spread and the regime, outlook
    and probability columns of every row that existed before are kept, and
    a row created by the batch has all four NULL. *)
Theorem spread_engine_keeps_derived_columns (daily_snapshots : list Db.Snapshot)
    (ts : gmap Z Db.TermSpreadRow) :
  ∃ ts',
    Ingest.computeTermSpreads daily_snapshots ts = Some ts' ∧
    ∀ d r', ts' !! d = Some r' →
      match ts !! d with
      | Some r =>
        Db.term_spread_7dma r' = Db.term_spread_7dma r ∧
        Db.regime r' = Db.regime r ∧
        Db.btc_outlook r' = Db.btc_outlook r ∧
        Db.prob_positive_90d r' = Db.prob_positive_90d r
      | None =>
        Db.term_spread_7dma r' = None ∧ Db.regime r' = None ∧
        Db.btc_outlook r' = None ∧ Db.prob_positive_90d r' = None
      end.
Proof.
  destruct (computeTermSpreads_rows daily_snapshots) as (F & _ & _ & HF).
  destruct (HF ts) as (ts' & Hc & Hlk). exists ts'. split; [exact Hc|].
  intros d r'. rewrite Hlk.
  destruct (F d) as [p|], (ts !! d) as [r|]; intros [= <-]; done.
Qed.

(** X4. On a date with at least two distinct live maturities the front and
    back legs are different maturities, front strictly before back; the
    instrument recorded for each leg is the first snapshot of that leg in
    the query, and the underlying yield of the row is the one of that
    first front snapshot (it is not averaged over the leg). *)
Theorem multi_maturity_instruments (daily_snapshots : list Db.Snapshot)
    (ts : gmap Z Db.TermSpreadRow) (d : Z) :
  let live := Ingest.selectSnapshots daily_snapshots d in
  (2 ≤ size (list_to_set (C := gset Z) (map Db.expiry live)))%nat →
  ∃ ts' r front0 back0,
    Ingest.computeTermSpreads daily_snapshots ts = Some ts' ∧
    ts' !! d = Some r ∧
    Db.front_expiry r < Db.back_expiry r ∧
    filter (fun s => Db.expiry s = Db.front_expiry r) live !! 0%nat = Some front0 ∧
    filter (fun s => Db.expiry s = Db.back_expiry r) live !! 0%nat = Some back0 ∧
    Db.front_addr r = Db.market_addr front0 ∧
    Db.back_addr r = Db.market_addr back0 ∧
    Db.ts_underlying_apy r = Db.underlying_apy front0.
Proof.
  intros live Hsize. rewrite <- uniqueExpiries_length in Hsize.
  destruct (processDate_multi daily_snapshots ts d Hsize)
    as (lo & hi & f0 & b0 & Hlo & Hhi & Hf & Hb & _).
  fold live in Hlo, Hhi, Hf, Hb.
  destruct (computeTermSpreads_rows daily_snapshots) as (F & HFnone & HFdate & HF).
  destruct (HF ts) as (ts' & Hc & Hlk).
  destruct (processDate_uniform daily_snapshots d) as (op & Hop & _ & Hproc).
  pose proof (uniqueExpiries_sorted daily_snapshots d) as Hsorted.
  fold live in Hsorted, Hsize.
  assert (Hlt : lo < hi).
  { assert (Hle : lo ≤ hi).
    { eapply sorted_first_least; [exact Hsorted|exact Hlo|].
      by eapply list_elem_of_lookup_2. }
    assert (Hne : lo ≠ hi); [|lia].
    intros ->.
    assert (Hnd : NoDup (JS.sort Z.leb (JS.Set_of (map Db.expiry live)))).
    { rewrite sort_perm. apply NoDup_Set_of. }
    pose proof (NoDup_lookup _ _ _ _ Hnd Hlo Hhi). lia. }
  destruct (computeMany_lookup daily_snapshots _ ts d
              (selectDates_NoDup daily_snapshots)) as (ts0 & ts1 & ts'' & Hc' & Hp & Hrow).
  { apply elem_of_selectDates.
    apply list_elem_of_lookup_2, list_elem_of_filter in Hf as [_ Hf0].
    apply elem_of_selectSnapshots in Hf0 as (Hin & <- & _).
    by apply list_elem_of_fmap_2. }
  unfold Ingest.computeTermSpreads in Hc. rewrite Hc' in Hc. injection Hc as ->.
  destruct (processDate_multi daily_snapshots ts0 d Hsize)
    as (lo' & hi' & f0' & b0' & Hlo' & Hhi' & Hf' & Hb' & Hp').
  fold live in Hlo', Hhi', Hf', Hb', Hp'.
  rewrite Hlo in Hlo'. injection Hlo' as <-.
  rewrite Hhi in Hhi'. injection Hhi' as <-.
  rewrite Hf in Hf'. injection Hf' as <-.
  rewrite Hb in Hb'. injection Hb' as <-.
  rewrite Hp' in Hp. injection Hp as <-.
  match type of Hrow with _ = Db.upsertTermSpread ?p _ !! _ =>
    change d with (Db.p_date p) in Hrow at 2 end.
  rewrite upsert_lookup_eq in Hrow. simpl in Hrow.
  eexists ts', _, f0, b0. split; [unfold Ingest.computeTermSpreads; exact Hc'|].
  split; [exact Hrow|].
  destruct (ts0 !! d); simpl; repeat split; done.
Qed.

Lemma multi_maturity_instruments_witness :
  let live := Ingest.selectSnapshots Examples.two_maturities 19875 in
  ∃ ts' r front0 back0,
    Ingest.computeTermSpreads Examples.two_maturities ∅ = Some ts' ∧
    ts' !! 19875 = Some r ∧
    Db.front_expiry r < Db.back_expiry r ∧
    filter (fun s => Db.expiry s = Db.front_expiry r) live !! 0%nat = Some front0 ∧
    filter (fun s => Db.expiry s = Db.back_expiry r) live !! 0%nat = Some back0 ∧
    Db.front_addr r = Db.market_addr front0 ∧
    Db.back_addr r = Db.market_addr back0 ∧
    Db.ts_underlying_apy r = Db.underlying_apy front0.
Proof.
  apply (multi_maturity_instruments Examples.two_maturities ∅ 19875).
  vm_compute. lia.
Defined.

(** ** The smoothing pass as a whole *)

Section SmoothingBatch.
Import Db Ingest.

Lemma keyed_unique {B} (l : list (Z * B)) k a b :
  NoDup l.*1 → (k, a) ∈ l → (k, b) ∈ l → a = b.
Proof.
  induction l as [|[k0 c] l IH]; intros Hnd Ha Hb; [by apply elem_of_nil in Ha|].
  rewrite fmap_cons in Hnd. apply NoDup_cons in Hnd as [Hk0 Hnd].
  apply elem_of_cons in Ha as [Ha|Ha]; apply elem_of_cons in Hb as [Hb|Hb].
  - congruence.
  - injection Ha as -> ->. exfalso. apply Hk0.
    by apply (list_elem_of_fmap_2 fst) in Hb.
  - injection Hb as -> ->. exfalso. apply Hk0.
    by apply (list_elem_of_fmap_2 fst) in Ha.
  - by apply IH.
Qed.

Lemma selectSpreads_index (ts : gmap Z TermSpreadRow) d r :
  ts !! d = Some r → ∃ i, selectSpreads ts !! i = Some (d, term_spread r).
Proof.
  intros Hr. apply list_elem_of_lookup_1, elem_of_selectSpreads. by exists r.
Qed.

(** Every row of the table is smoothed, and nothing else changes. *)
Lemma compute7DayMA_rows (ts : gmap Z TermSpreadRow) d :
  match ts !! d with
  | Some r => ∃ v, compute7DayMA ts !! d = Some (set_7dma v r)
  | None => compute7DayMA ts !! d = None
  end.
Proof.
  destruct (ts !! d) as [r|] eqn:Hr.
  - destruct (selectSpreads_index ts d r Hr) as [i Hi].
    eexists. by rewrite (compute7DayMA_lookup ts i d _ Hi), Hr.
  - unfold compute7DayMA. destruct (selectSpreads ts) eqn:Hrows; [done|].
    rewrite <- Hrows. rewrite updateMany_lookup_notin; [done|].
    rewrite smoothingUpdates_dates. intros Hin.
    apply list_elem_of_fmap_1 in Hin as ([d' s] & -> & Hin).
    apply elem_of_selectSpreads in Hin as (r & Hr' & _). simpl in Hr. congruence.
Qed.

(** The smoothing pass does not change the series it reads. *)
Lemma selectSpreads_compute7DayMA (ts : gmap Z TermSpreadRow) :
  selectSpreads (compute7DayMA ts) = selectSpreads ts.
Proof.
  assert (Hsame : ∀ x, x ∈ selectSpreads (compute7DayMA ts) ↔ x ∈ selectSpreads ts).
  { intros [d s]. rewrite !elem_of_selectSpreads.
    pose proof (compute7DayMA_rows ts d) as H.
    destruct (ts !! d) as [r|].
    - destruct H as [v ->]. split; intros (r' & [= <-] & ->); eexists; split; done.
    - rewrite H. split; intros (r' & [=] & _). }
  eapply (StronglySorted_unique_strong (fun a b : Z * Q => (a.1 <=? b.1) = true)).
  - intros [k1 a1] [k2 a2] H1 H2 Hle1 Hle2. simpl in *.
    assert (k1 = k2) as -> by lia. f_equal.
    apply Hsame in H1.
    eapply keyed_unique; [apply (selectSpreads_NoDup ts)|done..].
  - apply sort_sorted; intros; lia.
  - apply sort_sorted; intros; lia.
  - apply NoDup_Permutation; [| |exact Hsame].
    + eapply NoDup_fmap_1, selectSpreads_NoDup.
    + eapply NoDup_fmap_1, selectSpreads_NoDup.
Qed.



End SmoothingBatch.


(** X6. The smoothing pass is idempotent: run again on its own result, it
    changes nothing. *)
Theorem smoothing_idempotent (ts : gmap Z Db.TermSpreadRow) :
  Ingest.compute7DayMA (Ingest.compute7DayMA ts) = Ingest.compute7DayMA ts.
Proof.
  apply map_eq. intros d.
  destruct (ts !! d) as [r|] eqn:Hr.
  - destruct (selectSpreads_index ts d r Hr) as [i Hi].
    pose proof Hi as Hi'. rewrite <- selectSpreads_compute7DayMA in Hi'.
    rewrite (compute7DayMA_lookup _ i d _ Hi'), selectSpreads_compute7DayMA.
    rewrite (compute7DayMA_lookup ts i d _ Hi), Hr. done.
  - pose proof (compute7DayMA_rows ts d) as H1. rewrite Hr in H1.
    pose proof (compute7DayMA_rows (Ingest.compute7DayMA ts) d) as H2.
    rewrite H1 in H2. by rewrite H1, H2.
Qed.



(** X8. Recomputing is idempotent end to end: running the spread engine
    and then the smoothing pass a second time on the same snapshots leaves
    the table of the first run unchanged. *)
Theorem recompute_idempotent (daily_snapshots : list Db.Snapshot)
    (ts : gmap Z Db.TermSpreadRow) :
  ∃ ts2,
    Ingest.recompute daily_snapshots ts = Some ts2 ∧
    Ingest.recompute daily_snapshots ts2 = Some ts2.
Proof.
  destruct (computeTermSpreads_rows daily_snapshots) as (F & _ & _ & HF).
  destruct (HF ts) as (ts1 & Hc1 & Hlk1).
  exists (Ingest.compute7DayMA ts1). unfold Ingest.recompute.
  rewrite Hc1. simpl. split; [done|].
  destruct (HF (Ingest.compute7DayMA ts1)) as (ts3 & Hc3 & Hlk3).
  rewrite Hc3. simpl. f_equal.
  assert (ts3 = Ingest.compute7DayMA ts1) as ->; [|apply smoothing_idempotent].
  apply map_eq. intros d. rewrite Hlk3.
  pose proof (compute7DayMA_rows ts1 d) as Hma. rewrite Hlk1 in Hma.
  destruct (F d) as [p|]; [|done].
  destruct Hma as [v ->]. by destruct (ts !! d).
Qed.

(** ** The source normalizers *)

Lemma Math_round_integer (k : Z) : JS.Math_round (inject_Z k) = k.
Proof.
  unfold JS.Math_round.
  pose proof (Qfloor_le (inject_Z k + (1 # 2))) as Hle.
  pose proof (Qlt_floor (inject_Z k + (1 # 2))) as Hlt.
  set (f := Qfloor (inject_Z k + (1 # 2))) in *.
  assert (H1 : (inject_Z f < inject_Z (k + 1))%Q).
  { rewrite inject_Z_plus. change (inject_Z 1) with 1%Q. lra. }
  assert (H2 : (inject_Z k < inject_Z (f + 1))%Q) by lra.
  rewrite <- Zlt_Qlt in H1, H2. lia.
Qed.

(** The number of days between two calendar days is their difference. *)
Lemma daysBetween_difference (a b : Z) : Ingest.daysBetween a b = b - a.
Proof.
  unfold Ingest.daysBetween, Ingest.getTime.
  rewrite <- (Math_round_integer (b - a)). apply Math_round_comp.
  replace (b * 86400000 - a * 86400000) with ((b - a) * 86400000) by lia.
  rewrite inject_Z_mult. change (inject_Z 86400000) with 86400000%Q.
  field.
Qed.

(** X9. Every snapshot row written for a market carries that market's
    address and expiry and a number of days to expiry equal to expiry
    minus date; so the spread engine's filter keeps such a row exactly
    when its date is strictly before the expiry. *)
Theorem ingested_days_to_expiry (address : string) (expiry : Z)
    (results : list Ingest.PendleHistEntry) :
  Forall (fun p =>
            Ingest.sp_marketAddr p = address ∧
            Ingest.sp_expiry p = expiry ∧
            Ingest.sp_daysToExpiry p = expiry - Ingest.sp_date p ∧
            (Ingest.dte_positive (Ingest.snapshotOfParams p) = true ↔
             Ingest.sp_date p < expiry))
         (Ingest.pendleRows address expiry results).
Proof.
  unfold Ingest.pendleRows. apply Forall_fmap, Forall_forall. intros e _. simpl.
  rewrite daysBetween_difference. repeat split; try done.
  - unfold Ingest.dte_positive. simpl. lia.
  - unfold Ingest.dte_positive. simpl. lia.
Qed.

(** X10. The outlier removal drops exactly the first and the last entry of
    a history of more than two entries, and keeps a history of one or two
    entries whole, boundary points included. *)
Theorem pendle_trim (address : string) (expiry : Z) :
  (∀ first second middle last,
     map Ingest.sp_date
       (Ingest.pendleRows address expiry (first :: second :: middle ++ [last])) =
     map Ingest.he_date (second :: middle)) ∧
  (∀ results, (length results ≤ 2)%nat →
     map Ingest.sp_date (Ingest.pendleRows address expiry results) =
     map Ingest.he_date results).
Proof.
  split.
  - intros first second middle last. unfold Ingest.pendleRows, Ingest.trimEntries.
    replace (2 <? length (first :: second :: middle ++ [last]))%nat with true
      by (symmetry; apply Nat.ltb_lt; simpl; rewrite length_app; simpl; lia).
    unfold JS.slice. cbn [drop].
    replace (length (first :: second :: middle ++ [last]) - 1 - 1)%nat
      with (length (second :: middle))
      by (simpl; rewrite length_app; simpl; lia).
    change (second :: middle ++ [last]) with ((second :: middle) ++ [last]).
    rewrite take_app_length, <- list_fmap_compose. done.
  - intros results Hlen. unfold Ingest.pendleRows, Ingest.trimEntries.
    replace (2 <? length results)%nat with false
      by (symmetry; apply Nat.ltb_ge; lia).
    by rewrite <- list_fmap_compose.
Qed.

Lemma dateOfTimestamp_day (ts d : Z) :
  Ingest.dateOfTimestamp ts = d ↔ d * 86400000 ≤ ts < (d + 1) * 86400000.
Proof.
  unfold Ingest.dateOfTimestamp.
  pose proof (Z.div_mod ts 86400000 ltac:(lia)) as Hdm.
  pose proof (Z.mod_pos_bound ts 86400000 ltac:(lia)) as Hb.
  split; [intros <-; lia|]. intros H.
  assert (ts / 86400000 < d + 1) by nia.
  assert (d - 1 < ts / 86400000) by nia. lia.
Qed.

(** X11. After a price feed is inserted, the price stored for a day is the
    price of the last entry of the feed whose timestamp falls on that day,
    with a NULL 24-hour change; a day without an entry keeps its row; the
    count returned is the number of entries, repeated days included. *)
Theorem insertBtcPrices_last_wins (prices : list (Z * Q))
    (btc_prices : gmap Z Db.BtcPriceRow) :
  (Ingest.insertBtcPrices prices btc_prices).2 = length prices ∧
  ∀ d, (Ingest.insertBtcPrices prices btc_prices).1 !! d =
       match Spec.last_quote prices d with
       | Some q => Some (Db.mkBtcPriceRow q None)
       | None => btc_prices !! d
       end.
Proof.
  split; [done|]. intros d. unfold Ingest.insertBtcPrices. simpl.
  revert btc_prices. induction prices as [|[ts p] prices IH]; intros t; [done|].
  simpl. rewrite IH. destruct (Spec.last_quote prices d); [done|].
  unfold Db.upsertBtcPrice. simpl.
  destruct (decide (d * 86400000 ≤ ts < (d + 1) * 86400000)) as [Hd|Hd].
  - apply dateOfTimestamp_day in Hd. rewrite Hd. apply lookup_insert_eq.
  - rewrite lookup_insert_ne; [done|]. by rewrite dateOfTimestamp_day.
Qed.

(** ** The term-structure route *)

Section TermStructureRoute.
Import Db Server.

Lemma closestDate_Some snaps date c :
  closestDate snaps date = Some c →
  c ≤ date ∧ c ∈ map snap_date snaps ∧
  ∀ d', d' ∈ map snap_date snaps → d' ≤ date → d' ≤ c.
Proof.
  unfold closestDate. intros Hc.
  set (l := filter (fun d => d ≤ date) (map snap_date snaps)) in *.
  assert (Hs : StronglySorted (fun a b => (b <=? a) = true)
                 (JS.sort (fun a b => b <=? a) l))
    by (apply sort_sorted; intros; lia).
  apply head_Some in Hc as [rest Hrest]. rewrite Hrest in Hs.
  assert (Hin : ∀ x, x ∈ c :: rest ↔ x ≤ date ∧ x ∈ map snap_date snaps).
  { intros x. rewrite <- Hrest, elem_of_sort. subst l.
    by rewrite list_elem_of_filter. }
  destruct (proj1 (Hin c)) as [Hle Hmem]; [by left|].
  split; [done|]. split; [done|]. intros d' Hd' Hle'.
  assert (Hd : d' ∈ c :: rest) by (by apply Hin).
  apply StronglySorted_cons in Hs as [Hall _]. rewrite Forall_forall in Hall.
  apply elem_of_cons in Hd as [->|Hd]; [lia|]. apply Hall in Hd. lia.
Qed.

Lemma closestDate_None snaps date :
  closestDate snaps date = None →
  ∀ d', d' ∈ map snap_date snaps → date < d'.
Proof.
  unfold closestDate. intros Hc d' Hd'.
  destruct (decide (d' ≤ date)) as [Hle|]; [|lia]. exfalso.
  assert (Hin : d' ∈ JS.sort (fun a b => b <=? a)
                  (filter (fun d => d ≤ date) (map snap_date snaps))).
  { rewrite elem_of_sort. by apply list_elem_of_filter. }
  destruct (JS.sort _ _); [by apply elem_of_nil in Hin|done].
Qed.

End TermStructureRoute.

(** X12. The term-structure route never looks ahead: it answers for the
    latest date with a snapshot on or before the requested date, with the
    spread row stored for that date, if any; when no snapshot is that old
    it answers with the requested date, no maturity and a null spread. *)
Theorem termStructure_no_lookahead (daily_snapshots : list Db.Snapshot)
    (term_spreads : gmap Z Db.TermSpreadRow) (date : Z) :
  let answer := Server.termStructure daily_snapshots term_spreads date in
  (Server.ts_date answer ≤ date) ∧
  ((∃ d', d' ∈ map Db.snap_date daily_snapshots ∧ d' ≤ date) →
     Server.ts_date answer ∈ map Db.snap_date daily_snapshots ∧
     (∀ d', d' ∈ map Db.snap_date daily_snapshots → d' ≤ date →
        d' ≤ Server.ts_date answer) ∧
     Server.termSpread answer = term_spreads !! Server.ts_date answer ∧
     Server.maturities answer =
       Server.selectMaturities daily_snapshots (Server.ts_date answer)) ∧
  ((∀ d', d' ∈ map Db.snap_date daily_snapshots → date < d') →
     answer = Server.mkTermStructure date [] None).
Proof.
  intros answer. subst answer. unfold Server.termStructure.
  destruct (Server.closestDate daily_snapshots date) as [c|] eqn:Hc.
  - apply closestDate_Some in Hc as (Hle & Hin & Hmax). simpl.
    split; [done|]. split; [done|].
    intros Hnone. apply Hnone in Hin. lia.
  - pose proof (closestDate_None _ _ Hc) as Hnone. simpl.
    split; [lia|]. split; [|done].
    intros (d' & Hd' & Hle). apply Hnone in Hd'. lia.
Qed.

Lemma sorted_NoDup_strict (l : list Z) :
  StronglySorted (fun a b => (a <=? b) = true) l → NoDup l → StronglySorted Z.lt l.
Proof.
  induction 1 as [|x l Hs IH Hx]; intros Hnd; [constructor|].
  apply NoDup_cons in Hnd as [Hnin Hnd]. constructor; [by apply IH|].
  rewrite Forall_forall in *. intros y Hy. specialize (Hx y Hy).
  assert (x ≠ y) by (intros ->; done). lia.
Qed.

(** X13. The maturities of the term-structure answer are the distinct
    expiries of all the snapshots of the date, expired ones included, in
    strictly ascending order, each with the arithmetic means of the
    implied and underlying yields of the snapshots of that expiry. *)
Theorem termStructure_maturities (daily_snapshots : list Db.Snapshot) (d : Z) :
  let points := Server.selectMaturities daily_snapshots d in
  StronglySorted Z.lt (map Server.mp_expiry points) ∧
  (∀ e, e ∈ map Server.mp_expiry points ↔
        ∃ s, s ∈ daily_snapshots ∧ Db.snap_date s = d ∧ Db.expiry s = e) ∧
  Forall (fun pt =>
            let group :=
              filter (fun s => Db.expiry s = Server.mp_expiry pt ∧ Db.snap_date s = d)
                     daily_snapshots in
            group ≠ [] ∧
            (Server.mp_implied_apy pt == Spec.Qmean (map Db.implied_apy group))%Q ∧
            (Server.mp_underlying_apy pt == Spec.Qmean (map Db.underlying_apy group))%Q)
         points.
Proof.
  intros points. subst points. unfold Server.selectMaturities.
  set (rows := filter (fun s => Db.snap_date s = d) daily_snapshots).
  set (es := JS.sort Z.leb (JS.Set_of (map Db.expiry rows))).
  assert (Hes : ∀ e, e ∈ es ↔
            ∃ s, s ∈ daily_snapshots ∧ Db.snap_date s = d ∧ Db.expiry s = e).
  { intros e. subst es. rewrite elem_of_sort, elem_of_Set_of, list_elem_of_fmap.
    split.
    - intros (s & -> & Hs). apply list_elem_of_filter in Hs as [Hd Hs]. by exists s.
    - intros (s & Hs & Hd & <-). exists s. split; [done|].
      by apply list_elem_of_filter. }
  rewrite map_map. simpl. rewrite map_id.
  split; [|split; [exact Hes|]].
  - apply sorted_NoDup_strict.
    + apply sort_sorted; [apply Zleb_total|apply Zleb_trans].
    + subst es. rewrite sort_perm. apply NoDup_Set_of.
  - apply Forall_fmap, Forall_forall. intros e He. simpl.
    subst rows. rewrite list_filter_filter.
    split; [|split; apply average_mean].
    apply Hes in He as (s & Hs & Hd & He).
    intros Hnil.
    assert (Hin : s ∈ filter (fun s => Db.expiry s = e ∧ Db.snap_date s = d)
                    daily_snapshots) by (by apply list_elem_of_filter).
    rewrite Hnil in Hin. by apply elem_of_nil in Hin.
Qed.

(** ** The classifier and the statistics panels *)

Lemma Math_min_monotone (c x y : Q) :
  (x <= y)%Q → (JS.Math_min c x <= JS.Math_min c y)%Q.
Proof.
  intros H. unfold JS.Math_min.
  destruct (Qle_bool c x) eqn:Hx, (Qle_bool c y) eqn:Hy;
    rewrite <- ?not_true_iff_false, ?Qle_bool_iff in *; lra.
Qed.

Lemma Math_max_monotone (c x y : Q) :
  (x <= y)%Q → (JS.Math_max c x <= JS.Math_max c y)%Q.
Proof.
  intros H. unfold JS.Math_max.
  destruct (Qle_bool c x) eqn:Hx, (Qle_bool c y) eqn:Hy;
    rewrite <- ?not_true_iff_false, ?Qle_bool_iff in *; lra.
Qed.

(** X14. The probability estimate never decreases when the spread
    increases, for every spread kind. *)
Theorem probability_monotone (v w : Q) (st : Dashboard.SpreadType) :
  (v <= w)%Q →
  (Dashboard.probPositive90d (Dashboard.interpretTermSpread v st) <=
   Dashboard.probPositive90d (Dashboard.interpretTermSpread w st))%Q.
Proof.
  intros Hvw.
  assert (Hcases : st = Dashboard.T_single_maturity ∨ st ≠ Dashboard.T_single_maturity)
    by (destruct st; [right|right|left]; done).
  destruct Hcases as [->|Hst].
  { simpl. lra. }
  destruct (not_single_fields v st Hst) as (_ & _ & ->).
  destruct (not_single_fields w st Hst) as (_ & _ & ->).
  assert (Hr : JS.Math_round (JS.Math_max 5 (JS.Math_min 95 (50 + v * 8)) * 10)
             ≤ JS.Math_round (JS.Math_max 5 (JS.Math_min 95 (50 + w * 8)) * 10)).
  { apply round_monotone.
    assert (JS.Math_max 5 (JS.Math_min 95 (50 + v * 8))
            <= JS.Math_max 5 (JS.Math_min 95 (50 + w * 8)))%Q; [|lra].
    apply Math_max_monotone, Math_min_monotone. lra. }
  rewrite Zle_Qle in Hr.
  unfold Qdiv. change (/ 10)%Q with (1 # 10)%Q. lra.
Qed.

Lemma probability_monotone_witness :
  (Dashboard.probPositive90d
     (Dashboard.interpretTermSpread (- (3 # 2)) Dashboard.T_term_spread_7dma) <=
   Dashboard.probPositive90d
     (Dashboard.interpretTermSpread 2 Dashboard.T_term_spread_7dma))%Q.
Proof.
  apply (probability_monotone (- (3 # 2)) 2 Dashboard.T_term_spread_7dma).
  vm_compute. discriminate.
Defined.

Lemma lt_true (a b : Q) : Dashboard.lt a b = true ↔ (a < b)%Q.
Proof. unfold Dashboard.lt. apply gt_true. Qed.

Lemma lt_false (a b : Q) : Dashboard.lt a b = false ↔ (b <= a)%Q.
Proof. unfold Dashboard.lt. apply gt_false. Qed.

Lemma ge_true (a b : Q) : Dashboard.ge a b = true ↔ (b <= a)%Q.
Proof. unfold Dashboard.ge. apply Qle_bool_iff. Qed.

Lemma ge_false (a b : Q) : Dashboard.ge a b = false ↔ (a < b)%Q.
Proof.
  unfold Dashboard.ge. rewrite <- not_true_iff_false, Qle_bool_iff.
  split; [apply Qnot_le_lt|apply Qlt_not_le].
Qed.

Lemma le_true (a b : Q) : Dashboard.le a b = true ↔ (a <= b)%Q.
Proof. unfold Dashboard.le. apply Qle_bool_iff. Qed.

Lemma le_false (a b : Q) : Dashboard.le a b = false ↔ (b < a)%Q.
Proof.
  unfold Dashboard.le. rewrite <- not_true_iff_false, Qle_bool_iff.
  split; [apply Qnot_le_lt|apply Qlt_not_le].
Qed.

(** Case analysis on every comparison of the goal. *)
Local Ltac num_cases :=
  repeat match goal with
  | |- context [JS.gt ?a ?b] =>
    let H := fresh "Hc" in
    destruct (JS.gt a b) eqn:H; [apply gt_true in H|apply gt_false in H]
  | |- context [Dashboard.lt ?a ?b] =>
    let H := fresh "Hc" in
    destruct (Dashboard.lt a b) eqn:H; [apply lt_true in H|apply lt_false in H]
  | |- context [Dashboard.ge ?a ?b] =>
    let H := fresh "Hc" in
    destruct (Dashboard.ge a b) eqn:H; [apply ge_true in H|apply ge_false in H]
  | |- context [Dashboard.le ?a ?b] =>
    let H := fresh "Hc" in
    destruct (Dashboard.le a b) eqn:H; [apply le_true in H|apply le_false in H]
  end.

Lemma count_b2n {A} (P : A → bool) (l : list A) :
  length (filter (fun x => P x = true) l) = sum_list_with (fun x => Nat.b2n (P x)) l.
Proof.
  induction l as [|x l IH]; [done|].
  rewrite filter_cons. simpl. destruct (decide (P x = true)) as [Hx|Hx].
  - rewrite Hx. simpl. by rewrite IH.
  - apply not_true_is_false in Hx. by rewrite Hx.
Qed.


Lemma foldl_min_least (a : Q) (l : list Q) :
  foldl JS.Math_min a l ∈ a :: l ∧
  ∀ x, x ∈ a :: l → (foldl JS.Math_min a l <= x)%Q.
Proof.
  revert a. induction l as [|y l IH]; intros a; simpl.
  - split; [by left|]. intros x Hx. apply list_elem_of_singleton in Hx as ->. lra.
  - destruct (IH (JS.Math_min a y)) as [Hin Hle].
    assert (Hm : (JS.Math_min a y = a ∨ JS.Math_min a y = y) ∧
                 (JS.Math_min a y <= a ∧ JS.Math_min a y <= y)%Q).
    { unfold JS.Math_min. destruct (Qle_bool a y) eqn:Hay.
      - apply Qle_bool_iff in Hay. split; [by left|lra].
      - rewrite <- not_true_iff_false, Qle_bool_iff in Hay. split; [by right|lra]. }
    destruct Hm as [Heq [Hma Hmy]]. split.
    + apply elem_of_cons in Hin as [->|Hin]; [|by do 2 right].
      destruct Heq as [->| ->]; [by left|right; by left].
    + intros x Hx.
      assert (Hmin : (foldl JS.Math_min (JS.Math_min a y) l <= JS.Math_min a y)%Q)
        by (apply Hle; by left).
      apply elem_of_cons in Hx as [->|Hx]; [lra|].
      apply elem_of_cons in Hx as [->|Hx]; [lra|]. apply Hle. by right.
Qed.

Lemma foldl_max_greatest (a : Q) (l : list Q) :
  foldl JS.Math_max a l ∈ a :: l ∧
  ∀ x, x ∈ a :: l → (x <= foldl JS.Math_max a l)%Q.
Proof.
  revert a. induction l as [|y l IH]; intros a; simpl.
  - split; [by left|]. intros x Hx. apply list_elem_of_singleton in Hx as ->. lra.
  - destruct (IH (JS.Math_max a y)) as [Hin Hle].
    assert (Hm : (JS.Math_max a y = a ∨ JS.Math_max a y = y) ∧
                 (a <= JS.Math_max a y ∧ y <= JS.Math_max a y)%Q).
    { unfold JS.Math_max. destruct (Qle_bool a y) eqn:Hay.
      - apply Qle_bool_iff in Hay. split; [by right|lra].
      - rewrite <- not_true_iff_false, Qle_bool_iff in Hay. split; [by left|lra]. }
    destruct Hm as [Heq [Hma Hmy]]. split.
    + apply elem_of_cons in Hin as [->|Hin]; [|by do 2 right].
      destruct Heq as [->| ->]; [by left|right; by left].
    + intros x Hx.
      assert (Hmax : (JS.Math_max a y <= foldl JS.Math_max (JS.Math_max a y) l)%Q)
        by (apply Hle; by left).
      apply elem_of_cons in Hx as [->|Hx]; [lra|].
      apply elem_of_cons in Hx as [->|Hx]; [lra|]. apply Hle. by right.
Qed.







(** At exactly -0.5 percentage points the statistics count the spread as
    flat while the classifier answers backwardation. *)
Example flat_boundary :
  Dashboard.ge (- (1 # 2)) (- (1 # 2)) && Dashboard.le (- (1 # 2)) (1 # 2) = true ∧
  Dashboard.shape (Dashboard.interpretTermSpread (- (1 # 2)) Dashboard.T_term_spread)
  = "BACKWARDATION".
Proof. split; reflexivity. Qed.

(** ** The histogram of the spread distribution *)

Section Histogram.
Import Dashboard.
Variable spreads : list Q.

Lemma count_interval_split (lo mid hi : Z) :
  lo ≤ mid → mid ≤ hi →
  length (filter (fun s => ge s (inject_Z lo) && lt s (inject_Z hi) = true) spreads) =
  (length (filter (fun s => ge s (inject_Z lo) && lt s (inject_Z mid) = true) spreads) +
   length (filter (fun s => ge s (inject_Z mid) && lt s (inject_Z hi) = true) spreads))%nat.
Proof.
  intros H1 H2. rewrite Zle_Qle in H1, H2.
  rewrite (count_b2n (fun s => ge s (inject_Z lo) && lt s (inject_Z hi))),
    (count_b2n (fun s => ge s (inject_Z lo) && lt s (inject_Z mid))),
    (count_b2n (fun s => ge s (inject_Z mid) && lt s (inject_Z hi))).
  induction spreads as [|x l IH]; [done|]. cbn [sum_list_with].
  assert (Hx : Nat.b2n (ge x (inject_Z lo) && lt x (inject_Z hi)) =
               (Nat.b2n (ge x (inject_Z lo) && lt x (inject_Z mid)) +
                Nat.b2n (ge x (inject_Z mid) && lt x (inject_Z hi)))%nat).
  { num_cases; simpl; try reflexivity; exfalso; lra. }
  lia.
Qed.

Lemma count_interval_empty (lo : Z) :
  length (filter (fun s => ge s (inject_Z lo) && lt s (inject_Z lo) = true) spreads) = 0%nat.
Proof.
  rewrite (count_b2n (fun s => ge s (inject_Z lo) && lt s (inject_Z lo))).
  induction spreads as [|x l IH]; [done|]. cbn [sum_list_with]. rewrite IH.
  num_cases; simpl; try reflexivity; exfalso; lra.
Qed.

(** With enough fuel the loop runs until its condition fails, and its
    buckets count the spreads of [low, maxS). *)
Lemma bucketLoop_sum (maxS : Z) (fuel k : nat) (low : Z) :
  maxS = low + 2 * Z.of_nat k → (k ≤ fuel)%nat →
  sum_list (map b_count (bucketLoop spreads maxS fuel low)) =
  length (filter (fun s => ge s (inject_Z low) && lt s (inject_Z maxS) = true) spreads).
Proof.
  revert k low. induction fuel as [|fuel IH]; intros k low Hmax Hk.
  - assert (k = 0%nat) as -> by lia. replace maxS with low by lia.
    by rewrite count_interval_empty.
  - cbn [bucketLoop]. destruct (low <? maxS) eqn:Hlt.
    + apply Z.ltb_lt in Hlt. destruct k as [|k]; [lia|].
      change (sum_list (map b_count (?b :: ?l)))
        with (b_count b + sum_list (map b_count l))%nat.
      rewrite (IH k (low + 2)) by lia. cbn [b_count]. unfold bucketCount.
      rewrite (count_interval_split low (low + 2) maxS) by lia. done.
    + apply Z.ltb_ge in Hlt. assert (k = 0%nat) as -> by lia.
      replace maxS with low by lia. by rewrite count_interval_empty.
Qed.

Lemma bucketLoop_fuel (maxS : Z) (fuel k : nat) (low : Z) :
  maxS = low + 2 * Z.of_nat k → (k ≤ fuel)%nat →
  bucketLoop spreads maxS fuel low = bucketLoop spreads maxS k low.
Proof.
  revert k low. induction fuel as [|fuel IH]; intros k low Hmax Hk.
  - by assert (k = 0%nat) as -> by lia.
  - cbn [bucketLoop]. destruct (low <? maxS) eqn:Hlt.
    + apply Z.ltb_lt in Hlt. destruct k as [|k]; [lia|].
      cbn [bucketLoop]. apply Z.ltb_lt in Hlt. rewrite Hlt.
      f_equal. apply IH; lia.
    + apply Z.ltb_ge in Hlt. assert (k = 0%nat) as -> by lia. done.
Qed.

End Histogram.

Lemma sum_filter_positive (l : list Dashboard.Bucket) :
  sum_list (map Dashboard.b_count
              (filter (fun b => (0 < Dashboard.b_count b)%nat) l)) =
  sum_list (map Dashboard.b_count l).
Proof.
  induction l as [|b l IH]; [done|].
  rewrite filter_cons. destruct (decide (0 < Dashboard.b_count b)%nat) as [Hb|Hb].
  - change (sum_list (map Dashboard.b_count (b :: ?k)))
      with (Dashboard.b_count b + sum_list (map Dashboard.b_count k))%nat.
    change (sum_list (map Dashboard.b_count (b :: l)))
      with (Dashboard.b_count b + sum_list (map Dashboard.b_count l))%nat.
    by rewrite IH.
  - change (sum_list (map Dashboard.b_count (b :: l)))
      with (Dashboard.b_count b + sum_list (map Dashboard.b_count l))%nat.
    rewrite IH. lia.
Qed.

(** X18. The histogram is null exactly for an empty series. Otherwise every
    bucket shown is non-empty and the buckets together count exactly the
    spreads strictly below the upper bound [maxS], the greatest spread
    rounded up to a multiple of 2: all of them when the greatest spread is
    not a multiple of 2, and not all of them when it is, the observations
    equal to it being left out. The loop ends by its own condition: more
    iterations allowed give the same buckets. *)
Theorem histogram_counts (rows : list Dashboard.TermSpreadWithBtc) :
  match Dashboard.histogram rows with
  | None => rows = []
  | Some buckets =>
    ∃ s0 rest,
      Dashboard.pctSpreads rows = s0 :: rest ∧
      let minS := (Dashboard.histogramBounds s0 rest).1 in
      let maxS := (Dashboard.histogramBounds s0 rest).2 in
      let top := foldl JS.Math_max s0 rest in
      Forall (fun b => (0 < Dashboard.b_count b)%nat) buckets ∧
      sum_list (map Dashboard.b_count buckets) =
        length (filter (fun s => Dashboard.lt s (inject_Z maxS) = true) (s0 :: rest)) ∧
      ((top < inject_Z maxS)%Q →
         sum_list (map Dashboard.b_count buckets) = length rows) ∧
      ((top == inject_Z maxS)%Q →
         (sum_list (map Dashboard.b_count buckets) < length rows)%nat) ∧
      (∀ fuel, (Z.to_nat (maxS - minS) ≤ fuel)%nat →
         filter (fun b => (0 < Dashboard.b_count b)%nat)
           (Dashboard.bucketLoop (s0 :: rest) maxS fuel minS) = buckets)
  end.
Proof.
  unfold Dashboard.histogram.
  destruct (Dashboard.pctSpreads rows) as [|s0 rest] eqn:Hs; [by destruct rows|].
  assert (Hlen : length rows = length (s0 :: rest)).
  { rewrite <- Hs. unfold Dashboard.pctSpreads. by rewrite length_map. }
  unfold Dashboard.histogramBounds. cbn [fst snd].
  exists s0, rest. split; [done|].
  destruct (foldl_min_least s0 rest) as [_ Hmin].
  destruct (foldl_max_greatest s0 rest) as [Hmax_in Hmax].
  set (bot := foldl JS.Math_min s0 rest) in *.
  set (top := foldl JS.Math_max s0 rest) in *.
  set (f := Qfloor (bot / 2)). set (c := Qceiling (top / 2)).
  assert (Hf : (inject_Z (f * 2) <= bot)%Q).
  { rewrite inject_Z_mult. pose proof (Qfloor_le (bot / 2)) as H. fold f in H.
    change (inject_Z 2) with 2%Q.
    apply (Qmult_le_compat_r _ _ 2) in H; [|lra].
    assert (bot / 2 * 2 == bot)%Q by field. lra. }
  assert (Hc : (top <= inject_Z (c * 2))%Q).
  { rewrite inject_Z_mult. pose proof (Qle_ceiling (top / 2)) as H. fold c in H.
    change (inject_Z 2) with 2%Q.
    apply (Qmult_le_compat_r _ _ 2) in H; [|lra].
    assert (top / 2 * 2 == top)%Q by field. lra. }
  assert (Hbt : (bot <= top)%Q) by (apply Hmin, Hmax_in).
  assert (Hfc : f ≤ c).
  { assert (H : (inject_Z (f * 2) <= inject_Z (c * 2))%Q) by lra.
    rewrite <- Zle_Qle in H. lia. }
  assert (Hk : c * 2 = f * 2 + 2 * Z.of_nat (Z.to_nat (c - f))) by lia.
  assert (Hsum : ∀ fuel, (Z.to_nat (c * 2 - f * 2) ≤ fuel)%nat →
            sum_list (map Dashboard.b_count
                        (Dashboard.bucketLoop (s0 :: rest) (c * 2) fuel (f * 2))) =
            length (filter (fun s => Dashboard.lt s (inject_Z (c * 2)) = true)
                      (s0 :: rest))).
  { intros fuel Hfuel.
    rewrite (bucketLoop_sum _ _ fuel (Z.to_nat (c - f))) by lia.
    rewrite (count_b2n (fun s => Dashboard.ge s (inject_Z (f * 2))
                                 && Dashboard.lt s (inject_Z (c * 2)))),
      (count_b2n (fun s => Dashboard.lt s (inject_Z (c * 2)))).
    assert (Hall : ∀ x, x ∈ s0 :: rest → (bot <= x)%Q) by exact Hmin.
    revert Hall. generalize (s0 :: rest). intros l Hall.
    induction l as [|x l IH]; [done|]. cbn [sum_list_with].
    rewrite IH by (intros y Hy; apply Hall; by right).
    assert (Hx : (bot <= x)%Q) by (apply Hall; by left).
    f_equal. num_cases; simpl; try reflexivity; exfalso; lra. }
  split; [apply Forall_forall; intros b Hb; by apply list_elem_of_filter in Hb as [? _]|].
  rewrite sum_filter_positive, Hsum by lia.
  split; [done|]. split; [|split].
  - intros Htop. rewrite Hlen.
    rewrite (count_b2n (fun s => Dashboard.lt s (inject_Z (c * 2)))).
    assert (Hall : ∀ x, x ∈ s0 :: rest → (x <= top)%Q) by exact Hmax.
    revert Hall. generalize (s0 :: rest). intros l Hall.
    induction l as [|x l IH]; [done|]. cbn [sum_list_with length].
    rewrite IH by (intros y Hy; apply Hall; by right).
    assert (Hx : (x <= top)%Q) by (apply Hall; by left).
    num_cases; simpl; try reflexivity; exfalso; lra.
  - intros Htop. rewrite Hlen. apply (length_filter_lt _ _ top); [exact Hmax_in|].
    rewrite lt_true. lra.
  - intros fuel Hfuel.
    rewrite (bucketLoop_fuel _ _ fuel (Z.to_nat (c - f))) by lia.
    rewrite (bucketLoop_fuel _ _ (Z.to_nat (c * 2 - f * 2)) (Z.to_nat (c - f))) by lia.
    done.
Qed.

(** Spreads of 0, 1, 2 and -3 percentage points: the greatest, 2, is a
    multiple of 2 and is left out, so the buckets count three of the four
    observations. *)
Example histogram_drops_even_maximum :
  let row s := Dashboard.mkTermSpreadWithBtc (Dashboard.mkTermSpread 19875 s None 2) None in
  option_map (map Dashboard.b_count)
    (Dashboard.histogram [row 0%Q; row (2 # 100)%Q; row (1 # 100)%Q; row (- (3 # 100))%Q])
  = Some [1; 2]%nat.
Proof. reflexivity. Qed.

(** ** The price lookup map *)

Lemma price_history_fold (btcPrices : list Dashboard.BtcPrice) (m : gmap Z Q) (d : Z) :
  foldl (fun m bp => <[Dashboard.bp_date bp := Dashboard.bp_price bp]> m) m btcPrices !! d =
  match Spec.last_price btcPrices d with
  | Some p => Some p
  | None => m !! d
  end.
Proof.
  revert m. induction btcPrices as [|bp rest IH]; intros m; [done|].
  cbn [foldl Spec.last_price]. rewrite IH.
  destruct (Spec.last_price rest d); [done|].
  destruct (decide (Dashboard.bp_date bp = d)) as [<-|Hne].
  - by rewrite lookup_insert_eq.
  - by rewrite lookup_insert_ne.
Qed.

Lemma joined_prices_fold (rows : list Dashboard.TermSpreadWithBtc) (m : gmap Z Q) (d : Z) :
  foldl (fun m r =>
           match Dashboard.btc_price r with
           | Some p =>
             if decide (is_Some (m !! Dashboard.date (Dashboard.base r))) then m
             else <[Dashboard.date (Dashboard.base r) := p]> m
           | None => m
           end) m rows !! d =
  match m !! d with
  | Some p => Some p
  | None => Spec.first_joined rows d
  end.
Proof.
  revert m. induction rows as [|r rest IH]; intros m.
  - cbn [foldl Spec.first_joined]. by destruct (m !! d).
  - cbn [foldl Spec.first_joined]. rewrite IH.
    destruct (Dashboard.btc_price r) as [p|].
    + destruct (decide (is_Some (m !! Dashboard.date (Dashboard.base r)))) as [Hs|Hs].
      * destruct (decide (Dashboard.date (Dashboard.base r) = d)) as [Hd|Hd]; [|done].
        rewrite Hd in Hs. by destruct Hs as [q ->].
      * destruct (decide (Dashboard.date (Dashboard.base r) = d)) as [Hd|Hd].
        -- rewrite Hd in *. rewrite lookup_insert_eq.
           destruct (m !! d); [by destruct Hs|done].
        -- by rewrite lookup_insert_ne.
    + by destruct (decide (Dashboard.date (Dashboard.base r) = d)).
Qed.

(** X19. The price the lookup map holds for a date: the price of the last
    entry of the price history with that date; when the history has no
    entry for the date, the price joined to the first spread row of that
    date that carries one; and no price otherwise. A joined price never
    replaces a price of the history. *)
Theorem btcPriceMap_lookup (btcPrices : list Dashboard.BtcPrice)
    (rows : list Dashboard.TermSpreadWithBtc) (d : Z) :
  Dashboard.btcPriceMap btcPrices rows !! d =
  match Spec.last_price btcPrices d with
  | Some p => Some p
  | None => Spec.first_joined rows d
  end.
Proof.
  unfold Dashboard.btcPriceMap. cbv zeta.
  rewrite joined_prices_fold, price_history_fold, lookup_empty.
  by destruct (Spec.last_price btcPrices d).
Qed.

(** ** Decile analysis in general *)

Section DecilesGeneral.
Import Dashboard.


Lemma slice_lookup {A} (start stop : nat) (l : list A) (i : nat) (x : A) :
  JS.slice start stop l !! i = Some x →
  l !! (start + i)%nat = Some x ∧ (i < stop - start)%nat.
Proof.
  unfold JS.slice. intros H. apply lookup_take_Some in H as [H Hi].
  by rewrite lookup_drop in H.
Qed.


Lemma decileRow_fields tz m (sorted : list TermSpreadWithBtc) (d : nat) row :
  decileRow tz m sorted d = Some row →
  ∃ first last,
    decileSlice sorted d !! 0%nat = Some first ∧
    decileSlice sorted d !! (length (decileSlice sorted d) - 1)%nat = Some last ∧
    range row = ((term_spread (base first) * 100)%Q, (term_spread (base last) * 100)%Q) ∧
    avgSpread row = (JS.average (fun r => term_spread (base r)) (decileSlice sorted d) * 100)%Q ∧
    count row = length (decileSlice sorted d) ∧
    avgBtcReturn90d row =
      (let returns := omap (forwardReturn tz (findBtcPrice tz m)) (decileSlice sorted d) in
       if (0 <? length returns)%nat then Some (JS.average (fun b => b) returns) else None).
Proof.
  unfold decileRow. cbv zeta.
  destruct (decileSlice sorted d !! 0%nat) as [first|] eqn:Hf; [|done].
  destruct (decileSlice sorted d !! (length (decileSlice sorted d) - 1)%nat)
    as [last|] eqn:Hl; [|done].
  cbn [mbind option_bind]. intros [= <-]. by exists first, last.
Qed.

Lemma computeDeciles_lookup tz l m rows d row :
  (20 ≤ length l)%nat →
  computeDeciles tz l m = Some rows → rows !! d = Some row →
  (d < 10)%nat ∧ decileRow tz m (sortedBySpread l) d = Some row.
Proof.
  intros Hn Hrows Hrow. unfold computeDeciles in Hrows.
  replace (length l <? 20)%nat with false in Hrows
    by (symmetry; apply Nat.ltb_ge; lia).
  apply mapM_Some_1 in Hrows.
  destruct (Forall2_lookup_r _ _ _ _ _ Hrows Hrow) as (d' & Hd' & Hrowd).
  apply lookup_seq in Hd' as [-> Hd]. by split.
Qed.

Lemma omap_nil_iff {A B} (f : A → option B) (l : list A) :
  omap f l = [] ↔ Forall (fun x => f x = None) l.
Proof.
  induction l as [|x l IH]; [by split|]. rewrite Forall_cons. simpl.
  destruct (f x) as [y|].
  - split; [intros H; discriminate H|intros [H _]; discriminate H].
  - rewrite IH. intuition.
Qed.

End DecilesGeneral.

(** X20. From 20 observations on, the decile analysis yields exactly ten
    bins numbered 1 to 10; each of the first nine has floor(n/10) members,
    the tenth has the remaining n - 9*floor(n/10), at least as many as the
    others and fewer than ten more; and every observation is counted in
    exactly one bin, the counts adding up to n. *)
Theorem decile_sizes (tz : JS.TimeZone)
    (spreadsWithBtc : list Dashboard.TermSpreadWithBtc)
    (btcPriceMap : gmap Z Q) :
  (20 ≤ length spreadsWithBtc)%nat →
  let n := length spreadsWithBtc in
  ∃ rows,
    Dashboard.computeDeciles tz spreadsWithBtc btcPriceMap = Some rows ∧
    length rows = 10%nat ∧
    (∀ d row, rows !! d = Some row →
       Dashboard.decile row = Z.of_nat d + 1 ∧
       Dashboard.count row =
         if (d =? 9)%nat then (n - 9 * (n / 10))%nat else (n / 10)%nat) ∧
    (n / 10 ≤ n - 9 * (n / 10) < n / 10 + 10)%nat ∧
    sum_list (map Dashboard.count rows) = n.
Proof.
  intros Hn n.
  assert (Hs : (20 ≤ length (Dashboard.sortedBySpread spreadsWithBtc))%nat)
    by (by rewrite sortedBySpread_length).
  destruct (deciles_rows _ Hs tz btcPriceMap) as (rows & Hrows & Hlen & Hfields).
  exists rows. unfold Dashboard.computeDeciles.
  replace (length spreadsWithBtc <? 20)%nat with false
    by (symmetry; apply Nat.ltb_ge; lia).
  split; [done|]. split; [done|].
  assert (Hcount : ∀ d row, rows !! d = Some row →
            Dashboard.decile row = Z.of_nat d + 1 ∧
            Dashboard.count row =
              if (d =? 9)%nat then (n - 9 * (n / 10))%nat else (n / 10)%nat).
  { intros d row Hrow. destruct (Hfields d row Hrow) as [Hc Hd].
    split; [done|]. rewrite Hc.
    assert (d < 10)%nat by (rewrite <- Hlen; by eapply lookup_lt_Some).
    rewrite (decileSlice_length _ Hs) by done.
    unfold JS.floor_div. by rewrite sortedBySpread_length. }
  split; [exact Hcount|]. split.
  { pose proof (Nat.div_mod_eq n 10). pose proof (Nat.mod_upper_bound n 10). lia. }
  assert (Hmap : map Dashboard.count rows =
                 map (fun d => if (d =? 9)%nat then (n - 9 * (n / 10))%nat else (n / 10)%nat)
                     (seq 0 10)).
  { apply list_eq. intros i. rewrite !list_lookup_fmap.
    destruct (rows !! i) as [row|] eqn:Hrow.
    - assert (i < 10)%nat by (rewrite <- Hlen; by eapply lookup_lt_Some).
      rewrite lookup_seq_lt by done. cbn [fmap option_fmap option_map Nat.add].
      f_equal. by apply Hcount.
    - apply lookup_ge_None in Hrow. rewrite lookup_seq_ge by lia. done. }
  rewrite Hmap. cbn [seq map Nat.eqb sum_list sum_list_with]. unfold Datatypes.id.
  pose proof (Nat.div_mod_eq n 10). lia.
Qed.

Lemma decile_sizes_witness :
  ∃ rows,
    Dashboard.computeDeciles Examples.Europe_Berlin_2024 Examples.observations31 ∅ = Some rows ∧
    length rows = 10%nat ∧
    (∀ d row, rows !! d = Some row →
       Dashboard.decile row = Z.of_nat d + 1 ∧
       Dashboard.count row = if (d =? 9)%nat then 4%nat else 3%nat) ∧
    (3 ≤ 4 < 13)%nat ∧
    sum_list (map Dashboard.count rows) = 31%nat.
Proof.
  apply (decile_sizes Examples.Europe_Berlin_2024 Examples.observations31 ∅). vm_compute. lia.
Defined.



(** X22. The average forward return of a bin is null exactly when none of
    its members has a forward return; otherwise it is the mean of the
    forward returns of the members that have one, the others being left
    out of the mean and not counted as zero. *)
Theorem decile_return_null (tz : JS.TimeZone)
    (spreadsWithBtc : list Dashboard.TermSpreadWithBtc)
    (btcPriceMap : gmap Z Q) (rows : list Dashboard.DecileRow) (d : nat)
    (row : Dashboard.DecileRow) :
  (20 ≤ length spreadsWithBtc)%nat →
  Dashboard.computeDeciles tz spreadsWithBtc btcPriceMap = Some rows →
  rows !! d = Some row →
  let members := Dashboard.decileSlice (Dashboard.sortedBySpread spreadsWithBtc) d in
  let fwd := Dashboard.forwardReturn tz (Dashboard.findBtcPrice tz btcPriceMap) in
  (Dashboard.avgBtcReturn90d row = None ↔ Forall (fun r => fwd r = None) members) ∧
  (∀ v, Dashboard.avgBtcReturn90d row = Some v →
     (v == Spec.Qmean (omap fwd members))%Q).
Proof.
  intros Hn Hrows Hrow members fwd.
  destruct (computeDeciles_lookup _ _ _ _ _ _ Hn Hrows Hrow) as [Hd Hdr].
  destruct (decileRow_fields _ _ _ _ _ Hdr) as (_ & _ & _ & _ & _ & _ & _ & ->).
  cbv zeta. fold members fwd. rewrite <- omap_nil_iff.
  destruct (omap fwd members) as [|x returns] eqn:Hret.
  - split; [done|]. intros v Hv. discriminate Hv.
  - cbn [length Nat.ltb Nat.leb]. split; [split; intros H; discriminate H|].
    intros v [= <-]. rewrite average_mean. by rewrite map_id.
Qed.

Lemma decile_return_null_witness :
  ∃ rows row,
    Dashboard.computeDeciles Examples.Europe_Berlin_2024 Examples.observations31 ∅ = Some rows ∧
    rows !! 0%nat = Some row ∧
    let members := Dashboard.decileSlice (Dashboard.sortedBySpread Examples.observations31) 0 in
    let fwd := Dashboard.forwardReturn Examples.Europe_Berlin_2024 (Dashboard.findBtcPrice Examples.Europe_Berlin_2024 ∅) in
    (Dashboard.avgBtcReturn90d row = None ↔ Forall (fun r => fwd r = None) members) ∧
    (∀ v, Dashboard.avgBtcReturn90d row = Some v →
       (v == Spec.Qmean (omap fwd members))%Q).
Proof.
  destruct (Dashboard.computeDeciles Examples.Europe_Berlin_2024 Examples.observations31 ∅) as [rows|] eqn:Hrows;
    [|vm_compute in Hrows; discriminate Hrows].
  destruct (rows !! 0%nat) as [row|] eqn:Hrow.
  2: { vm_compute in Hrows. injection Hrows as <-. discriminate Hrow. }
  exists rows, row. split; [reflexivity|]. split; [exact Hrow|].
  apply (decile_return_null Examples.Europe_Berlin_2024 Examples.observations31 ∅ rows 0 row);
    [vm_compute; lia|exact Hrows|exact Hrow].
Defined.

(** ** The scatter chart and the decile analysis *)

Section ScatterAndDeciles.
Import Dashboard.

Lemma length_omap_filter {A B} (f : A → option B) (l : list A) :
  length (omap f l) = length (filter (fun x => is_Some (f x)) l).
Proof.
  induction l as [|x l IH]; [done|]. rewrite filter_cons. simpl.
  destruct (f x) as [y|] eqn:Hy.
  - rewrite decide_True by (by eexists). simpl. f_equal. exact IH.
  - rewrite decide_False by (intros [? ?]; done). exact IH.
Qed.

Lemma scatterPoints_nil tz m (l : list TermSpreadWithBtc) :
  scatterPoints tz m l = [] ↔
  Forall (fun r => forwardReturn tz (findBtcPrice tz m) r = None) l.
Proof.
  unfold scatterPoints. rewrite omap_nil_iff. apply Forall_iff. intros r.
  change (findPrice tz m) with (findBtcPrice tz m).
  by destruct (forwardReturn tz (findBtcPrice tz m) r).
Qed.

Lemma decileSlice_subseteq (sorted : list TermSpreadWithBtc) d x :
  x ∈ decileSlice sorted d → x ∈ sorted.
Proof.
  intros Hx. apply list_elem_of_lookup in Hx as [i Hi].
  unfold decileSlice in Hi. cbv zeta in Hi. apply slice_lookup in Hi as [Hi _].
  by eapply list_elem_of_lookup_2.
Qed.

Lemma decileRow_return_null tz m sorted d row :
  decileRow tz m sorted d = Some row →
  avgBtcReturn90d row = None ↔
  Forall (fun r => forwardReturn tz (findBtcPrice tz m) r = None) (decileSlice sorted d).
Proof.
  intros Hdr.
  destruct (decileRow_fields _ _ _ _ _ Hdr) as (_ & _ & _ & _ & _ & _ & _ & ->).
  cbv zeta. rewrite <- omap_nil_iff.
  destruct (omap (forwardReturn tz (findBtcPrice tz m)) (decileSlice sorted d)); [done|].
  cbn [length Nat.ltb Nat.leb]. split; intros H; discriminate H.
Qed.

End ScatterAndDeciles.

(** X23. The scatter chart and the decile table rest on the same forward
    returns: the chart never has more points than there are observations,
    and, from 20 observations on, it has no point at all exactly when
    every bin of the decile table has a null average forward return. *)
Theorem scatter_agrees_with_deciles (tz : JS.TimeZone)
    (spreadsWithBtc : list Dashboard.TermSpreadWithBtc)
    (btcPriceMap : gmap Z Q) (rows : list Dashboard.DecileRow) :
  (20 ≤ length spreadsWithBtc)%nat →
  Dashboard.computeDeciles tz spreadsWithBtc btcPriceMap = Some rows →
  (length (Dashboard.scatterPoints tz btcPriceMap spreadsWithBtc) ≤ length spreadsWithBtc)%nat ∧
  (Dashboard.scatterPoints tz btcPriceMap spreadsWithBtc = [] ↔
   Forall (fun row => Dashboard.avgBtcReturn90d row = None) rows).
Proof.
  intros Hn Hrows.
  split; [unfold Dashboard.scatterPoints; rewrite length_omap_filter; apply length_filter|].
  set (sorted := Dashboard.sortedBySpread spreadsWithBtc).
  assert (Hs : (20 ≤ length sorted)%nat) by (subst sorted; by rewrite sortedBySpread_length).
  assert (Hlen : length rows = 10%nat).
  { destruct (deciles_rows _ Hs tz btcPriceMap) as (rows0 & Hrows0 & Hlen & _).
    unfold Dashboard.computeDeciles in Hrows.
    replace (length spreadsWithBtc <? 20)%nat with false in Hrows
      by (symmetry; apply Nat.ltb_ge; lia).
    fold sorted in Hrows. rewrite Hrows0 in Hrows. by injection Hrows as <-. }
  rewrite scatterPoints_nil. split.
  - intros Hall. apply Forall_forall. intros row Hrow.
    apply list_elem_of_lookup in Hrow as [d Hd].
    destruct (computeDeciles_lookup _ _ _ _ _ _ Hn Hrows Hd) as [_ Hdr].
    apply (decileRow_return_null _ _ _ _ _ Hdr).
    apply Forall_forall. intros r Hr. rewrite Forall_forall in Hall. apply Hall.
    apply decileSlice_subseteq in Hr.
    by rewrite <- (sortedBySpread_perm spreadsWithBtc).
  - intros Hnull.
    rewrite <- (sortedBySpread_perm spreadsWithBtc). fold sorted.
    rewrite <- (decileSlices_concat sorted Hs).
    apply Forall_concat, Forall_fmap, Forall_forall. intros d Hd.
    apply elem_of_seq in Hd.
    destruct (lookup_lt_is_Some_2 rows d) as [row Hrow]; [lia|].
    destruct (computeDeciles_lookup _ _ _ _ _ _ Hn Hrows Hrow) as [_ Hdr].
    apply (decileRow_return_null _ _ _ _ _ Hdr).
    rewrite Forall_forall in Hnull. apply Hnull. by eapply list_elem_of_lookup_2.
Qed.

Lemma scatter_agrees_with_deciles_witness :
  ∃ rows,
    Dashboard.computeDeciles Examples.Europe_Berlin_2024 Examples.observations31 ∅ = Some rows ∧
    (length (Dashboard.scatterPoints Examples.Europe_Berlin_2024 ∅ Examples.observations31)
     ≤ length Examples.observations31)%nat ∧
    (Dashboard.scatterPoints Examples.Europe_Berlin_2024 ∅ Examples.observations31 = [] ↔
     Forall (fun row => Dashboard.avgBtcReturn90d row = None) rows).
Proof.
  destruct (Dashboard.computeDeciles Examples.Europe_Berlin_2024 Examples.observations31 ∅) as [rows|] eqn:Hrows;
    [|vm_compute in Hrows; discriminate Hrows].
  exists rows. split; [reflexivity|].
  apply (scatter_agrees_with_deciles Examples.Europe_Berlin_2024 Examples.observations31 ∅ rows);
    [vm_compute; lia|exact Hrows].
Defined.

(** ** The volatility guard *)

Section VolatilityGuard.
Import Dashboard.

Lemma logReturn_is_Some (rows : list (TermSpreadWithBtc * Q)) (j : nat) :
  (1 ≤ j < length rows)%nat →
  is_Some (logReturn rows j) ↔
  negb (Qeq_bool (nth j rows.*2 0%Q) 0)
  && negb (Qeq_bool (nth (j - 1) rows.*2 0%Q) 0) = true.
Proof.
  intros Hj. unfold logReturn.
  destruct (lookup_lt_is_Some_2 rows j) as [cur Hcur]; [lia|].
  destruct (lookup_lt_is_Some_2 rows (j - 1)%nat) as [prev Hprev]; [lia|].
  assert (Hn : ∀ k r, rows !! k = Some r → nth k rows.*2 0%Q = r.2).
  { intros k r Hk. apply nth_lookup_Some with (d := 0%Q).
    by rewrite list_lookup_fmap, Hk. }
  rewrite (Hn _ _ Hcur), (Hn _ _ Hprev). rewrite Hcur. simpl.
  destruct j as [|j']; [lia|].
  replace (S j' - 1)%nat with j' in * by lia.
  rewrite Hprev. simpl. unfold truthy.
  destruct (negb (Qeq_bool cur.2 0) && negb (Qeq_bool prev.2 0)).
  - split; [done|]. intros _. by eexists.
  - split; [by intros [? ?]|done].
Qed.

Lemma usable_steps_length (rows : list (TermSpreadWithBtc * Q)) (i : nat) :
  (30 ≤ i < length rows)%nat →
  length (omap (logReturn rows) (seq (i - 29) 30)) =
  Spec.usable_steps rows.*2 (i - 29) 30.
Proof.
  intros Hi. rewrite length_omap_filter. unfold Spec.usable_steps.
  assert (Hall : Forall (fun j => (1 ≤ j < length rows)%nat) (seq (i - 29) 30)).
  { apply Forall_forall. intros j Hj. apply elem_of_seq in Hj. lia. }
  induction Hall as [|j l Hj _ IH]; [done|].
  rewrite !filter_cons.
  destruct (decide (is_Some (logReturn rows j))) as [Hs|Hs].
  - rewrite decide_True by (by apply logReturn_is_Some). simpl. by rewrite IH.
  - rewrite decide_False by (by rewrite <- logReturn_is_Some). done.
Qed.

End VolatilityGuard.

(** The rows of the volatility series are the rows that have a resolvable
    price, in their order; the others are dropped before indexing. *)
Lemma enrich_rows (btcPriceMap : gmap Z Q)
    (termSpreadsWithBtc : list Dashboard.TermSpreadWithBtc) :
  (Dashboard.enrich btcPriceMap termSpreadsWithBtc).*1 =
  filter (Spec.resolvable btcPriceMap) termSpreadsWithBtc.
Proof.
  unfold Dashboard.enrich.
  induction termSpreadsWithBtc as [|r l IH]; [done|].
  rewrite filter_cons. cbn [omap list_omap].
  destruct (decide (Spec.resolvable btcPriceMap r)) as [Hr|Hr];
    unfold Spec.resolvable in Hr.
  - destruct Hr as [p Hp]. rewrite Hp. cbn [mbind option_bind fmap list_fmap fst].
    f_equal. exact IH.
  - destruct (from_option Some _ _) as [p|] eqn:Hp; [by destruct Hr; eexists|].
    cbn [mbind option_bind]. exact IH.
Qed.

(** C9 as stated fails: of thirty-two consecutive days the one of index
    15 has no price, so the last day, of index 31, has only 15 immediately
    preceding consecutive days with a resolvable price; it is nevertheless
    the point of index 30 of the series, which has 30 predecessors there,
    and its volatility is not null. *)
Lemma volatility_across_unpriced_day :
  let l := Examples.observations32_gap in
  Spec.consecutive_priced_predecessors ∅ l 31 = 15%nat ∧
  ∃ pt,
    Dashboard.volSeries ∅ l !! 30%nat = Some pt ∧
    (Dashboard.date ∘ Dashboard.base) <$> l !! 31%nat = Some (Dashboard.vp_date pt) ∧
    is_Some (Dashboard.vol pt) ∧
    ¬ (is_Some (Dashboard.vol pt) ↔
       (30 ≤ Spec.consecutive_priced_predecessors ∅ l 31)%nat).
Proof.
  intros l.
  assert (Hrun : Spec.consecutive_priced_predecessors ∅ l 31 = 15%nat)
    by (vm_compute; reflexivity).
  split; [exact Hrun|].
  set (rows := Dashboard.enrich ∅ l).
  assert (Hpos : Forall (fun r => (0 < r.2)%Q) rows)
    by (vm_compute; repeat constructor).
  assert (Hlen : length rows = 31%nat) by (vm_compute; reflexivity).
  assert (Hdate : (Dashboard.date ∘ Dashboard.base ∘ fst) <$> rows !! 30%nat
                  = Some 19906) by (vm_compute; reflexivity).
  destruct (rows !! 30%nat) as [r|] eqn:Hr; [|discriminate Hdate].
  injection Hdate as Hdate.
  assert (Hvol : is_Some (Dashboard.vol30d rows 30)).
  { rewrite (vol30d_window rows Hpos 30) by lia. by eexists. }
  eexists. split.
  { unfold Dashboard.volSeries. fold l rows. rewrite list_lookup_imap, Hr. reflexivity. }
  cbn [Dashboard.vp_date Dashboard.vol].
  split; [|split; [exact Hvol|]].
  - transitivity (Some 19906); [vm_compute; reflexivity|].
    f_equal. symmetry. exact Hdate.
  - rewrite Hrun. intros [H _]. specialize (H Hvol). lia.
Qed.

(** C9, amended. The series has one point per row that has a resolvable
    price; the rows without one are dropped before indexing, so the
    predecessors of a point need not be consecutive days. The volatility
    of the point of index i is non-null exactly when i has at least 30
    predecessors in that series and more than 5 of the 30 steps of its
    trailing window have both prices non-zero, which positive prices
    always give; for positive prices it is non-null exactly when i has at
    least 30 predecessors and is then the standard deviation of the 30 log
    returns of the trailing window, times the square root of 365, times
    100; with fewer than 30 predecessors it is null, not zero. *)
Theorem realized_volatility (btcPriceMap : gmap Z Q)
    (termSpreadsWithBtc : list Dashboard.TermSpreadWithBtc) (i : nat) :
  let rows := Dashboard.enrich btcPriceMap termSpreadsWithBtc in
  (i < length rows)%nat →
  rows.*1 = filter (Spec.resolvable btcPriceMap) termSpreadsWithBtc ∧
  ∃ pt,
    Dashboard.volSeries btcPriceMap termSpreadsWithBtc !! i = Some pt ∧
    (is_Some (Dashboard.vol pt) ↔
     (30 ≤ i)%nat ∧ (5 < Spec.usable_steps rows.*2 (i - 29) 30)%nat) ∧
    (Forall (fun r => (0 < r.2)%Q) rows →
       (is_Some (Dashboard.vol pt) ↔ (30 ≤ i)%nat) ∧
       ((30 ≤ i)%nat →
          Dashboard.vol pt =
          Some (Spec.stddev (Spec.log_returns rows.*2 (i - 29) 30)
                * sqrt 365 * 100)%R)) ∧
    ((i < 30)%nat → Dashboard.vol pt = None).
Proof.
  intros rows Hi. split; [apply enrich_rows|].
  destruct (lookup_lt_is_Some_2 rows i Hi) as [r Hr].
  eexists. split.
  { unfold Dashboard.volSeries. fold rows. rewrite list_lookup_imap, Hr. reflexivity. }
  cbn [Dashboard.vol]. split; [|split].
  - unfold Dashboard.vol30d.
    destruct (30 <=? i)%nat eqn:H30.
    + apply Nat.leb_le in H30. rewrite usable_steps_length by lia.
      destruct (5 <? Spec.usable_steps rows.*2 (i - 29) 30)%nat eqn:H5.
      * apply Nat.ltb_lt in H5. split; [done|]. intros _. by eexists.
      * apply Nat.ltb_ge in H5. split; [by intros [? ?]|]. intros [_ ?]. lia.
    + apply Nat.leb_gt in H30. split; [by intros [? ?]|]. intros [? _]. lia.
  - intros Hpos. split.
    + split.
      * intros Hsome. destruct (decide (30 ≤ i)%nat) as [|Hlt]; [done|].
        rewrite vol30d_early in Hsome by lia. by destruct Hsome.
      * intros Hge. rewrite vol30d_window by (done || lia). by eexists.
    + intros Hge. apply vol30d_window; [done|lia].
  - apply vol30d_early.
Qed.

Lemma realized_volatility_witness :
  let rows := Dashboard.enrich ∅ Examples.observations32_gap in
  rows.*1 = filter (Spec.resolvable ∅) Examples.observations32_gap ∧
  ∃ pt,
    Dashboard.volSeries ∅ Examples.observations32_gap !! 30%nat = Some pt ∧
    (is_Some (Dashboard.vol pt) ↔
     (30 ≤ 30)%nat ∧ (5 < Spec.usable_steps rows.*2 (30 - 29) 30)%nat) ∧
    (Forall (fun r => (0 < r.2)%Q) rows →
       (is_Some (Dashboard.vol pt) ↔ (30 ≤ 30)%nat) ∧
       ((30 ≤ 30)%nat →
          Dashboard.vol pt =
          Some (Spec.stddev (Spec.log_returns rows.*2 (30 - 29) 30)
                * sqrt 365 * 100)%R)) ∧
    ((30 < 30)%nat → Dashboard.vol pt = None).
Proof.
  apply (realized_volatility ∅ Examples.observations32_gap 30). vm_compute. lia.
Defined.

(** X24. Without any assumption on the prices: in the series of the rows
    that have a price there is one point per row, and the volatility of
    the point at index i is non-null exactly when i has at least 30
    predecessors and more than 5 of the 30 steps of the trailing window
    have both prices non-zero, the other steps being skipped; a volatility
    that is not null is never negative. *)
Theorem volatility_guard (btcPriceMap : gmap Z Q)
    (termSpreadsWithBtc : list Dashboard.TermSpreadWithBtc) (i : nat) :
  let rows := Dashboard.enrich btcPriceMap termSpreadsWithBtc in
  (i < length rows)%nat →
  length (Dashboard.volSeries btcPriceMap termSpreadsWithBtc) = length rows ∧
  ∃ pt,
    Dashboard.volSeries btcPriceMap termSpreadsWithBtc !! i = Some pt ∧
    (is_Some (Dashboard.vol pt) ↔
     (30 ≤ i)%nat ∧ (5 < Spec.usable_steps rows.*2 (i - 29) 30)%nat) ∧
    (∀ v, Dashboard.vol pt = Some v → (0 <= v)%R).
Proof.
  intros rows Hi.
  split; [unfold Dashboard.volSeries; by rewrite length_imap|].
  destruct (lookup_lt_is_Some_2 rows i Hi) as [r Hr].
  eexists. split.
  { unfold Dashboard.volSeries. fold rows. rewrite list_lookup_imap, Hr. reflexivity. }
  cbn [Dashboard.vol]. unfold Dashboard.vol30d.
  destruct (30 <=? i)%nat eqn:H30.
  - apply Nat.leb_le in H30. rewrite usable_steps_length by lia.
    destruct (5 <? Spec.usable_steps rows.*2 (i - 29) 30)%nat eqn:H5.
    + apply Nat.ltb_lt in H5. split.
      * split; [done|]. intros _. by eexists.
      * intros v Hv. apply (inj Some) in Hv. rewrite <- Hv.
        apply Rmult_le_pos; [apply sqrt_pos|Lra.lra].
    + apply Nat.ltb_ge in H5. split.
      * split; [by intros [? ?]|]. intros [_ ?]. lia.
      * intros v Hv. discriminate Hv.
  - apply Nat.leb_gt in H30. split.
    + split; [by intros [? ?]|]. intros [? _]. lia.
    + intros v Hv. discriminate Hv.
Qed.

Lemma volatility_guard_witness :
  let rows := Dashboard.enrich ∅ Examples.observations31 in
  length (Dashboard.volSeries ∅ Examples.observations31) = length rows ∧
  ∃ pt,
    Dashboard.volSeries ∅ Examples.observations31 !! 30%nat = Some pt ∧
    (is_Some (Dashboard.vol pt) ↔
     (30 ≤ 30)%nat ∧ (5 < Spec.usable_steps rows.*2 (30 - 29) 30)%nat) ∧
    (∀ v, Dashboard.vol pt = Some v → (0 <= v)%R).
Proof.
  apply (volatility_guard ∅ Examples.observations31 30). vm_compute. lia.
Defined.
